(** * Bearer-token authentication of foodisave.se

    A shallow embedding of [backend/app/security.py] and of the session
    endpoints of [backend/app/api/v1/core/user_endpoints/authentication.py],
    with the properties of token verification, identity resolution (and its
    daily credit grants), login and logout.

    Conventions of the embedding:
    - a [datetime] is an instant in UTC, counted in microseconds since the
      epoch; every call of [datetime.now] in the source is an explicit
      argument of the embedded function;
    - the relations [Users] and [Token] are lists of rows; an ORM object
      loaded in a session is a handle (row index) into the session's working
      copy, so attribute assignments are seen by every holder of the object
      and reach storage at [db.commit()];
    - a request handler is a computation in a state-and-exception monad over
      the SQLAlchemy session; [run_request] opens a session on the stored
      relations and yields the handler's outcome with what is then stored. *)

From Stdlib Require Import ZArith NArith String List Bool Lia ZifyNat ZifyN.
From Stdlib.Strings Require Import Byte.
From stdpp Require Import base option list strings.

Local Open Scope string_scope.
Local Open Scope Z_scope.

(** ** Time *)

Definition datetime := Z.
Definition timedelta := Z.

Definition MICROSECONDS_PER_MINUTE : Z := 60000000.
Definition MICROSECONDS_PER_DAY : Z := 86400000000.

(** [timedelta(minutes=m)] *)
Definition timedelta_minutes (m : Z) : timedelta := m * MICROSECONDS_PER_MINUTE.

(** [dt.date()] for a UTC instant: the number of the calendar day. *)
Definition date (dt : datetime) : Z := dt `div` MICROSECONDS_PER_DAY.

(** ** Rows of the two relations *)

(** Modelled from the spec: the columns of the relations [Users] and
    [Token], declared in [app/api/v1/core/models.py] ("email, one-way
    password hash, [is_active] flag, [is_admin] flag, integer [credits],
    [last_credit_refill] timestamp (nullable), [last_login_credit] timestamp
    (nullable)"; "owning user reference, creation timestamp"), with the
    attribute names the code reads and assigns. *)
Definition UUID := N.

Record Users := mkUsers {
  id : UUID;
  email : string;
  hashed_password : string;
  is_active : bool;
  is_admin : bool;
  credits : Z;
  last_credit_refill : option datetime;
  last_login_credit : option datetime
}.

Record Token := mkToken {
  token : string;
  user_id : UUID;
  created_at : datetime
}.

Record Store := mkStore {
  users_tbl : list Users;
  token_tbl : list Token
}.

(** Attribute assignment on a [Users] object. *)
Definition set_credits (v : Z) (u : Users) : Users :=
  mkUsers (id u) (email u) (hashed_password u) (is_active u) (is_admin u)
          v (last_credit_refill u) (last_login_credit u).

Definition set_last_credit_refill (v : option datetime) (u : Users) : Users :=
  mkUsers (id u) (email u) (hashed_password u) (is_active u) (is_admin u)
          (credits u) v (last_login_credit u).

Definition set_last_login_credit (v : option datetime) (u : Users) : Users :=
  mkUsers (id u) (email u) (hashed_password u) (is_active u) (is_admin u)
          (credits u) (last_credit_refill u) v.

(** ** Exceptions and responses *)

Inductive exn :=
| HTTPException (status_code : Z) (detail : string) (headers : list (string * string))
| IntegrityError
| AttributeError.

Definition HTTP_204_NO_CONTENT : Z := 204.
Definition HTTP_400_BAD_REQUEST : Z := 400.
Definition HTTP_401_UNAUTHORIZED : Z := 401.
Definition HTTP_403_FORBIDDEN : Z := 403.

Definition www_authenticate_bearer : list (string * string) :=
  [("WWW-Authenticate", "Bearer")].

Record TokenSchema := mkTokenSchema {
  access_token : string;
  token_type : string
}.

Record Response := mkResponse { status_code : Z }.

(** ** The session monad *)

(** A SQLAlchemy session: what is stored ([committed]), the transaction's
    view of the relations with the loaded objects' attribute changes
    ([working]), and the objects passed to [db.add] and not yet flushed
    ([new]). *)
Record Session := mkSession {
  committed : Store;
  working : Store;
  new : list Token
}.

Definition Handler (A : Type) : Type := Session -> (A + exn) * Session.

Definition ret {A} (a : A) : Handler A := fun s => (inl a, s).

Definition raise {A} (e : exn) : Handler A := fun s => (inr e, s).

Definition bind {A B} (m : Handler A) (k : A -> Handler B) : Handler B :=
  fun s =>
    match m s with
    | (inl a, s') => k a s'
    | (inr e, s') => (inr e, s')
    end.

Declare Scope handler_scope.
Delimit Scope handler_scope with handler.
Notation "x <- m ;; k" := (bind m (fun x => k))
  (at level 100, m at next level, right associativity) : handler_scope.
Notation "m ;; k" := (bind m (fun _ => k))
  (at level 100, right associativity) : handler_scope.
Local Open Scope handler_scope.

Definition with_working (w : Store) (s : Session) : Session :=
  mkSession (committed s) w (new s).

(** The INSERTs of a flush, in the order of [db.add]; [None] when one of
    them meets a row with the same token string.

    Modelled from the spec: the uniqueness constraint of the Token relation
    on the token string, declared in [app/api/v1/core/models.py] ("the
    random opaque string itself (unique, acts as primary key)"; "storage
    should reject/raise on duplicate"). *)
Fixpoint flush_new (pending : list Token) (tbl : list Token) : option (list Token) :=
  match pending with
  | [] => Some tbl
  | t :: rest =>
      if existsb (fun r => String.eqb (token r) (token t)) tbl then None
      else flush_new rest (tbl ++ [t])
  end.

(** [db.commit()]: flush the pending INSERTs and make the working copy the
    stored one; a constraint violation raises and rolls the transaction
    back. *)
Definition db_commit : Handler unit :=
  fun s =>
    match flush_new (new s) (token_tbl (working s)) with
    | Some toks =>
        let w := mkStore (users_tbl (working s)) toks in
        (inl tt, mkSession w w [])
    | None => (inr IntegrityError, mkSession (committed s) (committed s) [])
    end.

(** [db.add(obj)] for a [Token]. *)
Definition db_add (t : Token) : Handler unit :=
  fun s => (inl tt, mkSession (committed s) (working s) (new s ++ [t])).

(** [db.execute(delete(Token).where(Token.token == token_str))] *)
Definition db_delete_token (token_str : string) : Handler unit :=
  fun s =>
    (inl tt,
     with_working
       (mkStore (users_tbl (working s))
                (filter (fun t => token t ≠ token_str) (token_tbl (working s))))
       s).

(** A loaded [Users] object: the index of its row, or [None] for Python's
    [None]. Reading an attribute of [None] raises [AttributeError]. *)
Definition UsersObj := option nat.

Definition getattrs (user : UsersObj) : Handler Users :=
  fun s =>
    match user with
    | Some i =>
        match users_tbl (working s) !! i with
        | Some u => (inl u, s)
        | None => (inr AttributeError, s)
        end
    | None => (inr AttributeError, s)
    end.

Definition setattr (user : UsersObj) (f : Users -> Users) : Handler unit :=
  fun s =>
    match user with
    | Some i =>
        (inl tt,
         with_working
           (mkStore (alter f i (users_tbl (working s))) (token_tbl (working s))) s)
    | None => (inr AttributeError, s)
    end.

(** [db.refresh(user)]: reload the object's attributes from storage. *)
Definition db_refresh (user : UsersObj) : Handler unit :=
  fun s =>
    match user with
    | Some i =>
        match users_tbl (committed s) !! i with
        | Some u =>
            (inl tt,
             with_working
               (mkStore (<[i := u]> (users_tbl (working s))) (token_tbl (working s))) s)
        | None => (inr AttributeError, s)
        end
    | None => (inr AttributeError, s)
    end.

(** Modelled from the spec: the relationship [Token.user], declared in
    [app/api/v1/core/models.py] ("each token has exactly one owner"; "load
    owning user of the session's token"): the row of [Users] whose primary
    key is the token's [user_id]. *)
Definition owner (st : Store) (token_obj : Token) : option (nat * Users) :=
  list_find (fun u => id u = user_id token_obj) (users_tbl st).

(** [token_obj.user] *)
Definition Token_user (token_obj : Token) : Handler UsersObj :=
  fun s => (inl (fst <$> owner (working s) token_obj), s).

(** Modelled from the spec: the session dependency [get_db] of
    [app/db_setup.py] ("one logical request = one logical transaction
    against the persistence layer"): a request runs on a fresh session over
    what is stored, and what it did not commit is dropped when it ends. *)
Definition run_request {A} (h : Handler A) (st : Store) : (A + exn) * Store :=
  let (r, s) := h (mkSession st st []) in (r, committed s).

(** ** Token strings *)

#[global] Instance byte_eq_decision : EqDecision byte := Byte.byte_eq_dec.

Definition DEFAULT_ENTROPY : nat := 32.

(** [token_bytes]; [randbytes] stands for [_sysrand.randbytes], the
    operating system's random source. *)
Definition token_bytes (randbytes : nat -> list byte) (nbytes : option nat) : list byte :=
  let nbytes := match nbytes with None => DEFAULT_ENTROPY | Some n => n end in
  randbytes nbytes.

(** [base64.b64encode] of Python's standard library (RFC 4648, section 4):
    each group of three bytes is a number of 24 bits, written as four
    characters of 6 bits; a last group of one or two bytes is filled with
    zero bits and its unused characters are the padding ["="]. *)
Definition b64_alphabet : list byte :=
  list_byte_of_string "ABCDEFGHIJKLMNOPQRSTUVWXYZabcdefghijklmnopqrstuvwxyz0123456789+/".

Definition b64_char (sextet : N) : byte :=
  default "="%byte (b64_alphabet !! N.to_nat sextet).

Definition b64_group (n : N) : list byte :=
  [b64_char (n / 262144)%N; b64_char (n / 4096 mod 64)%N;
   b64_char (n / 64 mod 64)%N; b64_char (n mod 64)%N].

Fixpoint b64encode (s : list byte) : list byte :=
  match s with
  | [] => []
  | [a] =>
      take 2 (b64_group (Byte.to_N a * 65536)%N) ++ ["="%byte; "="%byte]
  | [a; b] =>
      take 3 (b64_group (Byte.to_N a * 65536 + Byte.to_N b * 256)%N) ++ ["="%byte]
  | a :: b :: c :: rest =>
      b64_group (Byte.to_N a * 65536 + Byte.to_N b * 256 + Byte.to_N c)%N
      ++ b64encode rest
  end.

(** [base64.urlsafe_b64encode]: the standard encoding with ["+"] and ["/"]
    translated to ["-"] and ["_"] (RFC 4648, section 5). *)
Definition urlsafe_translate (c : byte) : byte :=
  if decide (c = "+"%byte) then "-"%byte
  else if decide (c = "/"%byte) then "_"%byte
  else c.

Definition urlsafe_b64encode (s : list byte) : list byte :=
  urlsafe_translate <$> b64encode s.

Definition b64url_alphabet : list byte :=
  list_byte_of_string "ABCDEFGHIJKLMNOPQRSTUVWXYZabcdefghijklmnopqrstuvwxyz0123456789-_".

(** [bytes.rstrip(chars)]: drop the trailing bytes that are in [chars]. *)
Fixpoint rstrip (chars : list byte) (s : list byte) : list byte :=
  match s with
  | [] => []
  | c :: rest =>
      match rstrip chars rest with
      | [] => if decide (c ∈ chars) then [] else [c]
      | kept => c :: kept
      end
  end.

(** [token_urlsafe]; [.decode("ascii")] reads the bytes as characters. *)
Definition token_urlsafe (randbytes : nat -> list byte) (nbytes : option nat) : string :=
  let tok := token_bytes randbytes nbytes in
  string_of_list_byte (rstrip ["="%byte] (urlsafe_b64encode tok)).

(** ** The code of [security.py] and of the session endpoints *)

Record Settings := mkSettings { ACCESS_TOKEN_EXPIRE_MINUTES : Z }.

Section Code.

(** [app.settings.settings] and [pwd_context.verify] (passlib's bcrypt). *)
Variable settings : Settings.
Variable verify_password : string -> string -> bool.

(** [create_database_token]; [randomized_token] is the value drawn by
    [token_urlsafe()].

    Modelled from the spec: the default of the column [created_at], declared
    in [app/api/v1/core/models.py] ("persists a new Token row bound to
    [user_id] with current timestamp"). *)
Definition create_database_token (user_id : UUID) (randomized_token : string)
    (now : datetime) : Handler Token :=
  let new_token := mkToken randomized_token user_id now in
  db_add new_token ;;
  db_commit ;;
  ret new_token.

(** [verify_token_access]: the first row of [Token] with the presented
    string that is not older than [max_age], or 401. *)
Definition verify_token_access (token_str : string) (now : datetime) : Handler Token :=
  fun db =>
    let max_age := timedelta_minutes (ACCESS_TOKEN_EXPIRE_MINUTES settings) in
    let token :=
      find (fun t => String.eqb (token t) token_str && (created_at t >=? now - max_age))
           (token_tbl (working db)) in
    match token with
    | None =>
        raise (HTTPException HTTP_401_UNAUTHORIZED "Token invalid or expired"
                             www_authenticate_bearer) db
    | Some token => ret token db
    end.

(** [now0] is the clock read by [verify_token_access], [now] the one read by
    [get_current_user] itself. *)
Definition get_current_user (token : string) (now0 now : datetime) : Handler Users :=
  token_obj <- verify_token_access token now0 ;;
  user <- Token_user token_obj ;;
  u <- getattrs user ;;
  (if (credits u =? 0)
      && match last_credit_refill u with
         | Some refill => date now >? date refill
         | None => false
         end
   then
     setattr user (set_credits (credits u + 10)) ;;
     setattr user (set_last_credit_refill (Some now))
   else ret tt) ;;
  u <- getattrs user ;;
  (if match last_login_credit u with
      | None => true
      | Some bonus => negb (date bonus =? date now)
      end
   then
     setattr user (set_credits (credits u + 1)) ;;
     setattr user (set_last_login_credit (Some now))
   else ret tt) ;;
  db_commit ;;
  db_refresh user ;;
  u <- getattrs user ;;
  if negb (is_active u) then
    raise (HTTPException HTTP_403_FORBIDDEN
             "Kontot är inte aktiverat. Vänligen aktivera ditt konto."
             www_authenticate_bearer)
  else ret u.

(** [get_current_admin], which FastAPI calls with the result of its
    dependency [get_current_user]. *)
Definition get_current_admin (token : string) (now0 now : datetime) : Handler Users :=
  current_user <- get_current_user token now0 now ;;
  if negb (is_admin current_user) then
    raise (HTTPException HTTP_403_FORBIDDEN
             "Not authorized. admin privileges required."
             www_authenticate_bearer)
  else ret current_user.

Definition get_current_token (token : string) (now0 : datetime) : Handler Token :=
  token <- verify_token_access token now0 ;;
  ret token.

(** [POST /auth/token] *)
Definition login (username password : string) (randomized_token : string)
    (now : datetime) : Handler TokenSchema :=
  fun db =>
    let user := find (fun u => String.eqb (email u) username) (users_tbl (working db)) in
    match user with
    | None =>
        raise (HTTPException HTTP_400_BAD_REQUEST "User does not exist"
                             www_authenticate_bearer) db
    | Some user =>
        if negb (verify_password password (hashed_password user)) then
          raise (HTTPException HTTP_401_UNAUTHORIZED "Passwords do not match"
                               www_authenticate_bearer) db
        else if negb (is_active user) then
          raise (HTTPException HTTP_403_FORBIDDEN
                   "Account not activated. Please check your email and activate your account."
                   www_authenticate_bearer) db
        else
          (access_token <- create_database_token (id user) randomized_token now ;;
           ret (mkTokenSchema (token access_token) "bearer")) db
    end.

(** [DELETE /auth/logout]; [authorization] is the bearer token that the
    dependency [get_current_token] receives. *)
Definition logout (authorization : string) (now0 : datetime) : Handler Response :=
  current_token <- get_current_token authorization now0 ;;
  db_delete_token (token current_token) ;;
  db_commit ;;
  ret (mkResponse HTTP_204_NO_CONTENT).

End Code.

(** ** Vocabulary of the properties *)

(** The owning user of a presented token: the row the resolution works on,
    when the token verifies at [now0]. *)
Definition session_owner (settings : Settings) (st : Store) (token_str : string)
    (now0 : datetime) : option (nat * Users) :=
  match fst (run_request (verify_token_access settings token_str now0) st) with
  | inl t => owner st t
  | inr _ => None
  end.

(** The two daily rules, as conditions on the user that enters the
    resolution and as the amounts they grant. *)
Definition refill_due (now : datetime) (u : Users) : bool :=
  (credits u =? 0)
  && match last_credit_refill u with
     | Some refill => date now >? date refill
     | None => false
     end.

Definition login_bonus_due (now : datetime) (u : Users) : bool :=
  match last_login_credit u with
  | None => true
  | Some bonus => negb (date bonus =? date now)
  end.

Definition refill_amount (now : datetime) (u : Users) : Z :=
  if refill_due now u then 10 else 0.

Definition login_bonus_amount (now : datetime) (u : Users) : Z :=
  if login_bonus_due now u then 1 else 0.

(** The user as one resolution at [now] leaves it. *)
Definition daily_credits (now : datetime) (u : Users) : Users :=
  mkUsers (id u) (email u) (hashed_password u) (is_active u) (is_admin u)
          (credits u + refill_amount now u + login_bonus_amount now u)
          (if refill_due now u then Some now else last_credit_refill u)
          (if login_bonus_due now u then Some now else last_login_credit u).

(** The rules in the words of the specification. *)
Definition refill_rule (now : datetime) (u : Users) : Prop :=
  credits u = 0 /\
  exists refill, last_credit_refill u = Some refill /\ date refill < date now.

Definition login_bonus_rule (now : datetime) (u : Users) : Prop :=
  last_login_credit u = None \/
  exists bonus, last_login_credit u = Some bonus /\ date bonus <> date now.

Definition unauthorized : exn :=
  HTTPException 401 "Token invalid or expired" www_authenticate_bearer.

Definition forbidden_inactive : exn :=
  HTTPException 403 "Kontot är inte aktiverat. Vänligen aktivera ditt konto."
                www_authenticate_bearer.

Definition forbidden_not_admin : exn :=
  HTTPException 403 "Not authorized. admin privileges required."
                www_authenticate_bearer.

Definition max_age (settings : Settings) : timedelta :=
  timedelta_minutes (ACCESS_TOKEN_EXPIRE_MINUTES settings).

(** A token row that the verifier accepts for [token_str] at [now]. *)
Definition live_token (settings : Settings) (token_str : string) (now : datetime)
    (t : Token) : Prop :=
  token t = token_str /\ created_at t >= now - max_age settings.

(** *** Resolutions in sequence *)

Record Call := mkCall {
  call_token : string;
  call_now0 : datetime;
  call_now : datetime
}.

(** What is stored after the request [c] resolved its identity on [st]. *)
Definition resolve (settings : Settings) (c : Call) (st : Store) : Store :=
  snd (run_request
         (get_current_user settings (call_token c) (call_now0 c) (call_now c)) st).

Fixpoint resolve_all (settings : Settings) (cs : list Call) (st : Store) : Store :=
  match cs with
  | [] => st
  | c :: cs' => resolve_all settings cs' (resolve settings c st)
  end.

Definition credits_at (st : Store) (i : nat) : Z :=
  from_option credits 0 (users_tbl st !! i).

Definition refill_stamp (st : Store) (i : nat) : option datetime :=
  users_tbl st !! i ≫= last_credit_refill.

Definition login_stamp (st : Store) (i : nat) : option datetime :=
  users_tbl st !! i ≫= last_login_credit.

(** A request applied a rule to the user of row [i] when it moved the
    rule's timestamp of that row. *)
Definition refill_applied (i : nat) (st st' : Store) : bool :=
  negb (bool_decide (refill_stamp st i = refill_stamp st' i)).

Definition login_bonus_applied (i : nat) (st st' : Store) : bool :=
  negb (bool_decide (login_stamp st i = login_stamp st' i)).

(** *** A day of requests *)

(** Modelled from the spec: the requests of the rest of the application,
    which is not part of these sources ("every other protected endpoint (out
    of scope)"; [credits] are spent there and so reach 0 again): between two
    resolutions anything may happen to what is stored, as long as it leaves
    [last_credit_refill] and [last_login_credit] of every user alone, the
    two fields that only [get_current_user] assigns. *)
Inductive Request :=
| Resolve (c : Call)
| Other (f : Store -> Store).

Definition keeps_stamps (f : Store -> Store) : Prop :=
  forall (st : Store) (i : nat),
    refill_stamp (f st) i = refill_stamp st i
    /\ login_stamp (f st) i = login_stamp st i.

(** The day's condition on a request: a resolution reads its clock on day
    [d]; any other request keeps the timestamps. *)
Definition request_of_day (d : Z) (r : Request) : Prop :=
  match r with
  | Resolve c => date (call_now c) = d
  | Other f => keeps_stamps f
  end.

Definition serve (settings : Settings) (r : Request) (st : Store) : Store :=
  match r with
  | Resolve c => resolve settings c st
  | Other f => f st
  end.

Fixpoint serve_all (settings : Settings) (rs : list Request) (st : Store) : Store :=
  match rs with
  | [] => st
  | r :: rs' => serve_all settings rs' (serve settings r st)
  end.

(** The requests of [rs], served in sequence from [st], that applied the
    refill (the login bonus) to the user of row [i]. *)
Fixpoint refills (settings : Settings) (i : nat) (rs : list Request) (st : Store) : nat :=
  match rs with
  | [] => 0
  | r :: rs' =>
      let st' := serve settings r st in
      ((if refill_applied i st st' then 1 else 0) + refills settings i rs' st')%nat
  end.

Fixpoint login_bonuses (settings : Settings) (i : nat) (rs : list Request) (st : Store)
    : nat :=
  match rs with
  | [] => 0
  | r :: rs' =>
      let st' := serve settings r st in
      ((if login_bonus_applied i st st' then 1 else 0)
       + login_bonuses settings i rs' st')%nat
  end.

(** The credits that the resolutions of [rs] added to the user of row [i]:
    the sum, over the resolutions, of what each one added. *)
Fixpoint granted (settings : Settings) (i : nat) (rs : list Request) (st : Store) : Z :=
  match rs with
  | [] => 0
  | r :: rs' =>
      let st' := serve settings r st in
      match r with
      | Resolve _ => credits_at st' i - credits_at st i
      | Other _ => 0
      end
      + granted settings i rs' st'
  end.

(** Another request that assigns [credits] of the user of row [j], as a
    purchase does. *)
Definition spend (j : nat) (v : Z) (st : Store) : Store :=
  mkStore (alter (set_credits v) j (users_tbl st)) (token_tbl st).

(** *** Sample data *)

Definition sample_settings : Settings := mkSettings 30.

Definition day20 : datetime := 20 * MICROSECONDS_PER_DAY.
Definition day19 : datetime := 19 * MICROSECONDS_PER_DAY.

Definition alice : Users :=
  mkUsers 1%N "alice@foodisave.se" "hash-a" true false 0 (Some (day19 + 5)) None.
Definition bob : Users :=
  mkUsers 2%N "bob@foodisave.se" "hash-b" false false 0 (Some day19) None.
Definition carol : Users :=
  mkUsers 3%N "carol@foodisave.se" "hash-c" true true 4 None (Some day20).

Definition sample_store : Store :=
  mkStore [alice; bob; carol]
          [mkToken "tok-alice" 1%N day20; mkToken "tok-bob" 2%N day20;
           mkToken "tok-alice-2" 1%N (day20 + 7); mkToken "tok-carol" 3%N day20].

(** Four requests of day 20: three on tokens of [alice], one on [bob]'s. *)
Definition sample_calls : list Call :=
  [mkCall "tok-alice" (day20 + 100) (day20 + 101);
   mkCall "tok-alice-2" (day20 + 200) (day20 + 201);
   mkCall "tok-bob" (day20 + 300) (day20 + 301);
   mkCall "tok-alice" (day20 + 400) (day20 + 401)].

(** A day of [alice]: a resolution that refills and grants the bonus, the
    eleven credits spent, and two more resolutions entered with no credits. *)
Definition sample_day : list Request :=
  [Resolve (mkCall "tok-alice" (day20 + 100) (day20 + 101));
   Other (spend 0 0);
   Resolve (mkCall "tok-alice-2" (day20 + 200) (day20 + 201));
   Resolve (mkCall "tok-bob" (day20 + 300) (day20 + 301));
   Resolve (mkCall "tok-alice" (day20 + 400) (day20 + 401))].

(** The same requests with the last one read on the next day. *)
Definition sample_two_days : list Request :=
  [Resolve (mkCall "tok-alice" (day20 + 100) (day20 + 101));
   Other (spend 0 0);
   Resolve (mkCall "tok-alice-2" (day20 + 200) (day20 + 201));
   Resolve (mkCall "tok-alice-2" (day20 + 300) (day20 + MICROSECONDS_PER_DAY))].

(** A password check for the sample data: the stored hash of [p] is
    ["hash-" ++ p]. *)
Definition sample_verify_password (plain hashed : string) : bool :=
  String.eqb ("hash-" +:+ plain) hashed.

(** Two random sources for the sample data: every byte ["*"], every byte 0. *)
Definition sample_randbytes (n : nat) : list byte := repeat "*"%byte n.
Definition zero_randbytes (n : nat) : list byte := repeat x00 n.

(** A store whose only token names a user that is not stored. *)
Definition ghost_store : Store :=
  mkStore [alice] [mkToken "tok-ghost" 9%N day20].

(** [dave] received the login bonus in the last microsecond of day 19 and
    holds a token issued shortly before. *)
Definition dave : Users :=
  mkUsers 4%N "dave@foodisave.se" "hash-d" true false 3 None (Some (day20 - 1)).

Definition midnight_store : Store :=
  mkStore [dave] [mkToken "tok-dave" 4%N (day20 - 5)].

(** ** Properties *)

(** Altering a row that is there is overwriting it. *)
Lemma alter_at {A} (f : A -> A) (l : list A) (i : nat) (x : A) :
  l !! i = Some x -> alter f i l = <[i := f x]> l.
Proof.
  revert i. induction l as [|y l IH]; intros [|i] H; simplify_eq/=; try done.
  f_equal. by apply IH.
Qed.

(** Normalises the successive attribute assignments on the row [i], given
    [Hi : l !! i = Some u] and [Hlt : i < length l]. *)
Ltac rows Hi Hlt :=
  repeat first
    [ rewrite (alter_at _ _ _ _ Hi)
    | rewrite (alter_at _ _ _ _ (list_lookup_insert_eq _ _ _ Hlt))
    | rewrite list_insert_insert_eq
    | rewrite (list_lookup_insert_eq _ _ _ Hlt)
    | rewrite Hi ].

Section Properties.

Variable settings : Settings.

Lemma verify_token_access_run st tok now :
  run_request (verify_token_access settings tok now) st =
  (match find (fun t => String.eqb (token t) tok && (created_at t >=? now - max_age settings))
              (token_tbl st) with
   | Some t => inl t
   | None => inr unauthorized
   end, st).
Proof.
  unfold run_request, verify_token_access. cbn [working].
  destruct (find _ _); reflexivity.
Qed.

Lemma get_current_user_unauthorized st tok now0 now e :
  fst (run_request (verify_token_access settings tok now0) st) = inr e ->
  run_request (get_current_user settings tok now0 now) st = (inr e, st).
Proof.
  rewrite verify_token_access_run. cbn [fst].
  unfold run_request, get_current_user, verify_token_access, bind. cbn [working].
  destruct (find _ _); [discriminate|]. intros [= <-]. reflexivity.
Qed.

Lemma get_current_user_orphan st tok now0 now t :
  fst (run_request (verify_token_access settings tok now0) st) = inl t ->
  owner st t = None ->
  run_request (get_current_user settings tok now0 now) st = (inr AttributeError, st).
Proof.
  rewrite verify_token_access_run. cbn [fst].
  unfold run_request, get_current_user, verify_token_access, bind. cbn [working].
  destruct (find _ _); [|discriminate]. intros [= ->] Ho.
  unfold ret at 1. unfold Token_user. cbn [working]. rewrite Ho. reflexivity.
Qed.

Lemma get_current_user_resolved st tok now0 now i u :
  session_owner settings st tok now0 = Some (i, u) ->
  run_request (get_current_user settings tok now0 now) st =
  (if is_active u then inl (daily_credits now u) else inr forbidden_inactive,
   mkStore (<[i := daily_credits now u]> (users_tbl st)) (token_tbl st)).
Proof.
  unfold session_owner. rewrite verify_token_access_run. cbn [fst].
  unfold run_request, get_current_user, verify_token_access, bind. cbn [working].
  destruct (find _ _) as [t|]; [|discriminate]. intros Ho.
  assert (Hi : users_tbl st !! i = Some u)
    by (unfold owner in Ho; apply list_find_Some in Ho; tauto).
  assert (Hlt : (i < length (users_tbl st))%nat) by (eapply lookup_lt_Some; eauto).
  unfold ret at 1. unfold Token_user. cbn [working]. rewrite Ho.
  cbn [fmap option_fmap option_map fst].
  unfold getattrs at 1. cbn [working]. rewrite Hi.
  unfold daily_credits, refill_amount, login_bonus_amount.
  change ((credits u =? 0) && _) with (refill_due now u).
  destruct (refill_due now u) eqn:Hr; cbn; rows Hi Hlt; cbn;
    match goal with
    | |- context [if ?b then _ else ret ()] =>
        change b with (login_bonus_due now u); destruct (login_bonus_due now u) eqn:Hb
    end;
    cbn; rows Hi Hlt; cbn; rows Hi Hlt; cbn; rows Hi Hlt; cbn;
    clear Ho Hr Hb; destruct u as [? ? ? [] ? ? ? ?]; cbn; rewrite ?Z.add_0_r;
    rewrite ?(list_insert_id _ _ _ Hi); reflexivity.
Qed.

Lemma live_token_iff tok now t :
  String.eqb (token t) tok && (created_at t >=? now - max_age settings) = true
  <-> live_token settings tok now t.
Proof.
  unfold live_token.
  rewrite andb_true_iff, String.eqb_eq, Z.geb_le. intuition lia.
Qed.

Lemma verify_token_access_inl st tok now t :
  fst (run_request (verify_token_access settings tok now) st) = inl t ->
  t ∈ token_tbl st /\ live_token settings tok now t.
Proof.
  rewrite verify_token_access_run. cbn [fst].
  destruct (find _ _) as [t'|] eqn:Hf; [|discriminate]. intros [= <-].
  apply find_some in Hf as [Hin Hb].
  split; [by apply list_elem_of_In | by apply live_token_iff].
Qed.

Lemma verify_token_access_live st tok now t :
  t ∈ token_tbl st -> live_token settings tok now t ->
  exists t', fst (run_request (verify_token_access settings tok now) st) = inl t'.
Proof.
  intros Hin Hl. rewrite verify_token_access_run. cbn [fst].
  destruct (find _ _) as [t'|] eqn:Hf; [by eexists|].
  apply list_elem_of_In in Hin.
  pose proof (find_none _ _ Hf _ Hin) as Hb. cbn beta in Hb.
  apply live_token_iff in Hl. congruence.
Qed.

(** C4. Token verification returns a session exactly when some stored token
    row carries the presented string and was created no earlier than
    [now - max_age]; the row returned is such a row, a row created exactly at
    [now - max_age] is accepted, and every failure, whether the string was
    never issued or its rows have expired, is the one exception 401
    "Token invalid or expired". Verification stores nothing. *)
Theorem verify_token_access_spec (st : Store) (tok : string) (now : datetime) :
  let out := run_request (verify_token_access settings tok now) st in
  ((exists t, fst out = inl t) <->
   (exists t, t ∈ token_tbl st /\ token t = tok /\ created_at t >= now - max_age settings))
  /\ (forall t, fst out = inl t ->
        t ∈ token_tbl st /\ token t = tok /\ created_at t >= now - max_age settings)
  /\ (forall t, t ∈ token_tbl st -> token t = tok ->
        created_at t = now - max_age settings -> exists t', fst out = inl t')
  /\ ((forall t, fst out <> inl t) ->
        fst out = inr (HTTPException 401 "Token invalid or expired"
                                     [("WWW-Authenticate", "Bearer")]))
  /\ snd out = st.
Proof.
  cbn zeta. split; [split|split; [|split; [|split]]].
  - intros [t Ht]. exists t. by apply verify_token_access_inl in Ht.
  - intros (t & Hin & Hl). eapply verify_token_access_live; [done|]. exact Hl.
  - intros t Ht. by apply verify_token_access_inl in Ht.
  - intros t Hin Htok Hc. eapply verify_token_access_live; [done|].
    split; [done | lia].
  - rewrite verify_token_access_run. cbn [fst].
    destruct (find _ _) as [t|]; [|reflexivity]. intros H. by destruct (H t).
  - by rewrite verify_token_access_run.
Qed.

Lemma session_owner_lookup st tok now0 i u :
  session_owner settings st tok now0 = Some (i, u) -> users_tbl st !! i = Some u.
Proof.
  unfold session_owner, owner.
  destruct (fst _); [|discriminate]. intros Ho. apply list_find_Some in Ho. tauto.
Qed.

Lemma resolved_store st tok now0 now :
  snd (run_request (get_current_user settings tok now0 now) st) =
  match session_owner settings st tok now0 with
  | Some (i, u) => mkStore (<[i := daily_credits now u]> (users_tbl st)) (token_tbl st)
  | None => st
  end.
Proof.
  destruct (session_owner settings st tok now0) as [[i u]|] eqn:Ho.
  - by rewrite (get_current_user_resolved _ _ _ _ _ _ Ho).
  - unfold session_owner in Ho.
    destruct (fst (run_request (verify_token_access settings tok now0) st)) as [t|e] eqn:Hv.
    + by rewrite (get_current_user_orphan _ _ _ _ _ Hv Ho).
    + by rewrite (get_current_user_unauthorized _ _ _ _ _ Hv).
Qed.

Lemma resolved_row st tok now0 now i u :
  session_owner settings st tok now0 = Some (i, u) ->
  users_tbl (snd (run_request (get_current_user settings tok now0 now) st)) !! i
  = Some (daily_credits now u).
Proof.
  intros Ho. rewrite resolved_store, Ho. cbn [users_tbl].
  apply list_lookup_insert_eq. eapply lookup_lt_Some, session_owner_lookup, Ho.
Qed.

Lemma refill_due_iff now u : refill_due now u = true <-> refill_rule now u.
Proof.
  unfold refill_due, refill_rule.
  rewrite andb_true_iff, Z.eqb_eq.
  destruct (last_credit_refill u) as [r|].
  - rewrite Z.gtb_ltb, Z.ltb_lt. split.
    + intros [? ?]. eauto.
    + intros [? (r' & [= <-] & ?)]. done.
  - split; [intros [_ ?]; discriminate | intros [_ (r & ? & _)]; discriminate].
Qed.

Lemma login_bonus_due_iff now u : login_bonus_due now u = true <-> login_bonus_rule now u.
Proof.
  unfold login_bonus_due, login_bonus_rule.
  destruct (last_login_credit u) as [b|].
  - rewrite negb_true_iff, Z.eqb_neq. split.
    + intros ?. right. eauto.
    + intros [? | (b' & [= <-] & ?)]; [discriminate | done].
  - split; [by left | done].
Qed.

Lemma refill_amount_rule now u : refill_rule now u -> refill_amount now u = 10.
Proof. intros H. apply refill_due_iff in H. unfold refill_amount. by rewrite H. Qed.

Lemma refill_amount_no_rule now u : ~ refill_rule now u -> refill_amount now u = 0.
Proof.
  intros H. unfold refill_amount.
  destruct (refill_due now u) eqn:E; [|done]. by apply refill_due_iff in E.
Qed.

(** C2. In identity resolution the credit refill fires exactly when the
    entering user has [credits = 0], a recorded [last_credit_refill], and that
    timestamp's calendar day is before today's: then the stored credits grow
    by 10 (plus the login bonus of the same call) and [last_credit_refill]
    becomes [now]; otherwise the refill adds nothing and leaves the timestamp
    alone. In particular a user with no [last_credit_refill] is never
    refilled, whatever the credits. *)
Theorem refill_fires_exactly_when (st : Store) (tok : string) (now0 now : datetime)
    (i : nat) (u : Users) :
  session_owner settings st tok now0 = Some (i, u) ->
  exists u',
    users_tbl (snd (run_request (get_current_user settings tok now0 now) st)) !! i
    = Some u'
    /\ (refill_rule now u ->
          credits u' = credits u + 10 + login_bonus_amount now u
          /\ last_credit_refill u' = Some now)
    /\ (~ refill_rule now u ->
          credits u' = credits u + login_bonus_amount now u
          /\ last_credit_refill u' = last_credit_refill u)
    /\ (last_credit_refill u = None ->
          credits u' = credits u + login_bonus_amount now u
          /\ last_credit_refill u' = None).
Proof.
  intros Ho. exists (daily_credits now u). split; [by apply resolved_row|].
  assert (Hno : ~ refill_rule now u ->
                credits (daily_credits now u) = credits u + login_bonus_amount now u
                /\ last_credit_refill (daily_credits now u) = last_credit_refill u).
  { intros Hn. cbn. rewrite (refill_amount_no_rule _ _ Hn).
    destruct (refill_due now u) eqn:E; [by apply refill_due_iff in E|].
    split; [lia | done]. }
  split; [|split; [exact Hno|]].
  - intros Hr. cbn. rewrite (refill_amount_rule _ _ Hr).
    apply refill_due_iff in Hr. by rewrite Hr.
  - intros Hnone. destruct Hno as [Hc Hl].
    + intros (_ & r & Hr & _). congruence.
    + by rewrite Hl.
Qed.

(** C3. The login bonus fires exactly when the entering user has no
    [last_login_credit] or one of another calendar day than today's: then the
    stored credits grow by 1 on top of what the refill rule granted in the
    same call and [last_login_credit] becomes [now]; otherwise it adds
    nothing. A user entering with [credits = 0], [last_credit_refill]
    yesterday and no [last_login_credit] leaves the call with 11 credits and
    both timestamps at [now]. *)
Theorem login_bonus_fires_exactly_when (st : Store) (tok : string)
    (now0 now : datetime) (i : nat) (u : Users) :
  session_owner settings st tok now0 = Some (i, u) ->
  exists u',
    users_tbl (snd (run_request (get_current_user settings tok now0 now) st)) !! i
    = Some u'
    /\ (login_bonus_rule now u ->
          credits u' = credits u + refill_amount now u + 1
          /\ last_login_credit u' = Some now)
    /\ (~ login_bonus_rule now u ->
          credits u' = credits u + refill_amount now u
          /\ last_login_credit u' = last_login_credit u)
    /\ (credits u = 0 ->
        (exists refill, last_credit_refill u = Some refill
                        /\ date refill = date now - 1) ->
        last_login_credit u = None ->
          credits u' = 11
          /\ last_credit_refill u' = Some now
          /\ last_login_credit u' = Some now).
Proof.
  intros Ho. exists (daily_credits now u). split; [by apply resolved_row|].
  split; [|split].
  - intros Hb. apply login_bonus_due_iff in Hb. cbn.
    unfold login_bonus_amount. by rewrite Hb.
  - intros Hn. cbn. unfold login_bonus_amount.
    destruct (login_bonus_due now u) eqn:E; [by apply login_bonus_due_iff in E|].
    split; [lia | done].
  - intros Hc (r & Hr & Hd) Hl.
    assert (Hrule : refill_rule now u) by (split; [done | exists r; split; [done | lia]]).
    assert (Hbonus : login_bonus_rule now u) by (by left).
    cbn. rewrite (refill_amount_rule _ _ Hrule). unfold login_bonus_amount.
    apply refill_due_iff in Hrule. apply login_bonus_due_iff in Hbonus.
    rewrite Hrule, Hbonus, Hc. done.
Qed.

(** C5. A valid token of a user whose [is_active] is false makes identity
    resolution fail with 403, and what is stored after the failed call is the
    user with the refill and the login bonus applied as for any other user:
    the credit mutations are committed before the account state is looked
    at, and they are there whenever a rule was due. *)
Theorem inactive_user_forbidden_after_commit (st : Store) (tok : string)
    (now0 now : datetime) (i : nat) (u : Users) :
  session_owner settings st tok now0 = Some (i, u) ->
  is_active u = false ->
  let out := run_request (get_current_user settings tok now0 now) st in
  fst out = inr (HTTPException 403
                   "Kontot är inte aktiverat. Vänligen aktivera ditt konto."
                   [("WWW-Authenticate", "Bearer")])
  /\ snd out = mkStore (<[i := daily_credits now u]> (users_tbl st)) (token_tbl st)
  /\ users_tbl (snd out) !! i = Some (daily_credits now u)
  /\ (refill_rule now u ->
        last_credit_refill (daily_credits now u) = Some now
        /\ credits (daily_credits now u) >= credits u + 10)
  /\ (login_bonus_rule now u ->
        last_login_credit (daily_credits now u) = Some now
        /\ credits (daily_credits now u) >= credits u + 1).
Proof.
  intros Ho Ha. cbn zeta.
  split; [|split; [|split; [|split]]].
  - rewrite (get_current_user_resolved _ _ _ now _ _ Ho), Ha. reflexivity.
  - by rewrite (get_current_user_resolved _ _ _ now _ _ Ho).
  - by apply resolved_row.
  - intros Hr. cbn. rewrite (refill_amount_rule _ _ Hr).
    apply refill_due_iff in Hr. rewrite Hr. unfold login_bonus_amount.
    split; [done | destruct (login_bonus_due now u); lia].
  - intros Hb. apply login_bonus_due_iff in Hb. cbn.
    unfold login_bonus_amount, refill_amount. rewrite Hb.
    split; [done | destruct (refill_due now u); lia].
Qed.

(** C9. Identity resolution leaves the token relation as it was, keeps the
    number of user rows, and keeps the identifier, email, password hash,
    [is_active] and [is_admin] of every user; a row other than the one of the
    token's owning user is not touched at all. This holds for every outcome
    of the call. *)
Theorem get_current_user_frame (st : Store) (tok : string) (now0 now : datetime) :
  let st' := snd (run_request (get_current_user settings tok now0 now) st) in
  token_tbl st' = token_tbl st
  /\ length (users_tbl st') = length (users_tbl st)
  /\ (forall (j : nat) (u : Users), users_tbl st !! j = Some u ->
        exists u', users_tbl st' !! j = Some u'
                   /\ id u' = id u /\ email u' = email u
                   /\ hashed_password u' = hashed_password u
                   /\ is_active u' = is_active u /\ is_admin u' = is_admin u)
  /\ (forall j : nat, fst <$> session_owner settings st tok now0 ≠ Some j ->
        users_tbl st' !! j = users_tbl st !! j).
Proof.
  cbn zeta. rewrite resolved_store.
  destruct (session_owner settings st tok now0) as [[i v]|] eqn:Ho; cbn [users_tbl token_tbl].
  - pose proof (session_owner_lookup _ _ _ _ _ Ho) as Hi.
    split; [done|]. split; [apply length_insert|]. split.
    + intros j u Hj. destruct (decide (i = j)) as [<-|Hne].
      * exists (daily_credits now v).
        rewrite list_lookup_insert_eq by (eapply lookup_lt_Some; eauto).
        assert (u = v) as -> by congruence. done.
      * exists u. by rewrite list_lookup_insert_ne.
    + intros j Hj. apply list_lookup_insert_ne. intros ->. by apply Hj.
  - split; [done|]. split; [done|]. split; [|done].
    intros j u Hj. by exists u.
Qed.

(** C10. Admin resolution stores exactly what identity resolution stores:
    it fails as identity resolution fails, returns the resolved user as it is
    when that user is an admin, and otherwise fails with 403. So for a valid
    token of an active user who is no admin the call fails with 403 while the
    user's daily credit mutations are stored. *)
Theorem get_current_admin_after_resolution (st : Store) (tok : string)
    (now0 now : datetime) :
  let user_run := run_request (get_current_user settings tok now0 now) st in
  let admin_run := run_request (get_current_admin settings tok now0 now) st in
  snd admin_run = snd user_run
  /\ match fst user_run with
     | inl user =>
         fst admin_run =
         if is_admin user then inl user
         else inr (HTTPException 403 "Not authorized. admin privileges required."
                                 [("WWW-Authenticate", "Bearer")])
     | inr e => fst admin_run = inr e
     end
  /\ (forall (i : nat) (u : Users),
        session_owner settings st tok now0 = Some (i, u) ->
        is_active u = true -> is_admin u = false ->
        admin_run =
        (inr (HTTPException 403 "Not authorized. admin privileges required."
                            [("WWW-Authenticate", "Bearer")]),
         mkStore (<[i := daily_credits now u]> (users_tbl st)) (token_tbl st))).
Proof.
  cbn zeta.
  assert (Hrun : run_request (get_current_admin settings tok now0 now) st =
                 (match fst (run_request (get_current_user settings tok now0 now) st) with
                  | inl user => if is_admin user then inl user else inr forbidden_not_admin
                  | inr e => inr e
                  end,
                  snd (run_request (get_current_user settings tok now0 now) st))).
  { unfold run_request, get_current_admin, bind.
    destruct (get_current_user settings tok now0 now _) as [[user|e] s]; cbn; [|done].
    destruct (is_admin user); reflexivity. }
  split; [by rewrite Hrun|]. split.
  - rewrite Hrun. cbn [fst].
    destruct (fst (run_request (get_current_user settings tok now0 now) st)); reflexivity.
  - intros i u Ho Ha Hadm. rewrite Hrun.
    rewrite (get_current_user_resolved _ _ _ now _ _ Ho), Ha. cbn. by rewrite Hadm.
Qed.

Section Login.

Variable verify_password : string -> string -> bool.

Lemma login_run st username password randomized_token now :
  run_request (login verify_password username password randomized_token now) st =
  match find (fun u => String.eqb (email u) username) (users_tbl st) with
  | None =>
      (inr (HTTPException 400 "User does not exist" www_authenticate_bearer), st)
  | Some user =>
      if negb (verify_password password (hashed_password user)) then
        (inr (HTTPException 401 "Passwords do not match" www_authenticate_bearer), st)
      else if negb (is_active user) then
        (inr (HTTPException 403
                "Account not activated. Please check your email and activate your account."
                www_authenticate_bearer), st)
      else if existsb (fun r => String.eqb (token r) randomized_token) (token_tbl st) then
        (inr IntegrityError, st)
      else
        (inl (mkTokenSchema randomized_token "bearer"),
         mkStore (users_tbl st)
                 (token_tbl st ++ [mkToken randomized_token (id user) now]))
  end.
Proof.
  unfold run_request, login. cbn [working].
  destruct (find _ _) as [user|]; [|reflexivity].
  destruct (verify_password _ _); [|reflexivity].
  destruct (is_active user); [|reflexivity].
  unfold create_database_token, bind, db_add, db_commit. cbn.
  destruct (existsb _ _); reflexivity.
Qed.

Lemma find_email_None (l : list Users) username :
  (forall u, u ∈ l -> email u <> username) ->
  find (fun u => String.eqb (email u) username) l = None.
Proof.
  induction l as [|v l IH]; intros H; [done|]. cbn.
  destruct (String.eqb_spec (email v) username) as [E|_].
  - destruct (H v); [left | done].
  - apply IH. intros u Hu. apply H. by right.
Qed.

Lemma existsb_token_fresh (l : list Token) s :
  (forall t, t ∈ l -> token t <> s) ->
  existsb (fun r => String.eqb (token r) s) l = false.
Proof.
  induction l as [|r l IH]; intros H; [done|]. cbn.
  destruct (String.eqb_spec (token r) s) as [E|_].
  - destruct (H r); [left | done].
  - apply IH. intros t Ht. apply H. by right.
Qed.

(** C7. Login: an email that no user has fails with 400 "User does not
    exist"; for the user the email selects, a password that does not verify
    fails with 401, and a verified password on an account that is not active
    fails with 403; every failure leaves storage as it was, so no token row is
    created. A verified password on an active account, with a token string
    not yet stored, appends one token row for that user, created at [now],
    and returns its string with the token type "bearer"; no other outcome
    returns a body. *)
Theorem login_outcomes (st : Store) (username password randomized_token : string)
    (now : datetime) :
  let out := run_request (login verify_password username password randomized_token now) st in
  ((forall u, u ∈ users_tbl st -> email u <> username) ->
     out = (inr (HTTPException 400 "User does not exist"
                               [("WWW-Authenticate", "Bearer")]), st))
  /\ (forall user : Users,
        find (fun u => String.eqb (email u) username) (users_tbl st) = Some user ->
        (verify_password password (hashed_password user) = false ->
           out = (inr (HTTPException 401 "Passwords do not match"
                                     [("WWW-Authenticate", "Bearer")]), st))
        /\ (verify_password password (hashed_password user) = true ->
            is_active user = false ->
              out = (inr (HTTPException 403
                            "Account not activated. Please check your email and activate your account."
                            [("WWW-Authenticate", "Bearer")]), st))
        /\ (verify_password password (hashed_password user) = true ->
            is_active user = true ->
            (forall t, t ∈ token_tbl st -> token t <> randomized_token) ->
              out = (inl (mkTokenSchema randomized_token "bearer"),
                     mkStore (users_tbl st)
                             (token_tbl st ++ [mkToken randomized_token (id user) now]))))
  /\ (forall e, fst out = inr e -> snd out = st)
  /\ (forall body, fst out = inl body ->
        token_type body = "bearer"
        /\ access_token body = randomized_token
        /\ exists user,
             find (fun u => String.eqb (email u) username) (users_tbl st) = Some user
             /\ verify_password password (hashed_password user) = true
             /\ is_active user = true
             /\ snd out = mkStore (users_tbl st)
                            (token_tbl st ++ [mkToken randomized_token (id user) now])).
Proof.
  cbn zeta. rewrite login_run. split; [|split; [|split]].
  - intros H. by rewrite (find_email_None _ _ H).
  - intros user ->. split; [|split].
    + by intros ->.
    + by intros -> ->.
    + intros -> -> Hfresh. cbn. by rewrite (existsb_token_fresh _ _ Hfresh).
  - intros e. destruct (find _ _) as [user|]; [|done].
    destruct (verify_password _ _); [|done]. destruct (is_active user); [|done].
    cbn. destruct (existsb _ _); [done | discriminate].
  - intros body. destruct (find _ _) as [user|]; [|discriminate].
    destruct (verify_password _ _) eqn:Hp; [|discriminate].
    destruct (is_active user) eqn:Ha; [|discriminate].
    cbn. destruct (existsb _ _); [discriminate|]. intros [= <-]. cbn.
    split; [done|]. split; [done|]. by exists user.
Qed.

End Login.

Lemma logout_run st tok now0 t :
  fst (run_request (verify_token_access settings tok now0) st) = inl t ->
  run_request (logout settings tok now0) st =
  (inl (mkResponse 204),
   mkStore (users_tbl st) (filter (fun r => token r ≠ tok) (token_tbl st))).
Proof.
  intros Hv. pose proof (verify_token_access_inl _ _ _ _ Hv) as (_ & Htok & _).
  revert Hv. rewrite verify_token_access_run. cbn [fst].
  unfold run_request, logout, get_current_token, verify_token_access, bind.
  cbn [working].
  destruct (find _ _) as [t'|]; [|discriminate]. intros [= ->].
  cbn. by rewrite Htok.
Qed.

Lemma find_filter_token (f : Token -> bool) tok (l : list Token) :
  (forall r, f r = true -> token r <> tok) ->
  find f (filter (fun r => token r ≠ tok) l) = find f l.
Proof.
  intros Hf. induction l as [|r l IH]; [done|].
  rewrite filter_cons. cbn [find]. destruct (decide (token r ≠ tok)) as [Hne|Heq].
  - cbn [find]. by rewrite IH.
  - destruct (f r) eqn:E; [|done]. by apply Hf in E.
Qed.

Lemma find_filter_token_gone (f : Token -> bool) tok (l : list Token) :
  (forall r, f r = true -> token r = tok) ->
  find f (filter (fun r => token r ≠ tok) l) = None.
Proof.
  intros Hf. induction l as [|r l IH]; [done|].
  rewrite filter_cons. destruct (decide (token r ≠ tok)) as [Hne|Heq]; [|done].
  cbn [find]. destruct (f r) eqn:E; [|done]. by apply Hf in E.
Qed.

Lemma filter_token_absent tok (l : list Token) :
  tok ∉ token <$> l -> filter (fun r => token r ≠ tok) l = l.
Proof.
  induction l as [|r l IH]; intros Hn; [done|].
  rewrite fmap_cons, not_elem_of_cons in Hn. destruct Hn as [Hne Hn].
  rewrite filter_cons_True by done. f_equal. by apply IH.
Qed.

Lemma filter_token_one tok t (l : list Token) :
  NoDup (token <$> l) -> t ∈ l -> token t = tok ->
  length l = S (length (filter (fun r => token r ≠ tok) l)).
Proof.
  induction l as [|r l IH]; intros Hnd Hin Ht; [by apply elem_of_nil in Hin|].
  rewrite fmap_cons in Hnd. apply NoDup_cons in Hnd as [Hr Hnd].
  destruct (decide (token r = tok)) as [E|E].
  - rewrite filter_cons_False by (intros ?; done).
    rewrite filter_token_absent by (by rewrite <- E). done.
  - rewrite filter_cons_True by done. cbn. f_equal. apply IH; [done| |done].
    apply elem_of_cons in Hin as [->|?]; done.
Qed.

(** C8. Logout with a token that verifies answers 204 and deletes from the
    token relation the rows that carry the presented string, and nothing
    else: the users and every row with another string stay as they are, in
    their order. Afterwards the presented string fails verification with 401
    at any time, every other string verifies exactly as before, and when
    token strings are unique in storage exactly one row is gone. *)
Theorem logout_deletes_presented_token (st : Store) (tok : string) (now0 : datetime)
    (t : Token) :
  fst (run_request (verify_token_access settings tok now0) st) = inl t ->
  let out := run_request (logout settings tok now0) st in
  fst out = inl (mkResponse 204)
  /\ users_tbl (snd out) = users_tbl st
  /\ token_tbl (snd out) = filter (fun r => token r ≠ tok) (token_tbl st)
  /\ (forall r, r ∈ token_tbl (snd out) <-> r ∈ token_tbl st /\ token r <> tok)
  /\ (forall now',
        fst (run_request (verify_token_access settings tok now') (snd out))
        = inr (HTTPException 401 "Token invalid or expired"
                             [("WWW-Authenticate", "Bearer")]))
  /\ (forall tok' now', tok' <> tok ->
        fst (run_request (verify_token_access settings tok' now') (snd out))
        = fst (run_request (verify_token_access settings tok' now') st))
  /\ (NoDup (token <$> token_tbl st) ->
        length (token_tbl st) = S (length (token_tbl (snd out)))).
Proof.
  intros Hv. cbn zeta. rewrite (logout_run _ _ _ _ Hv). cbn [fst snd users_tbl token_tbl].
  split; [done|]. split; [done|]. split; [done|]. split; [|split; [|split]].
  - intros r. by rewrite list_elem_of_filter, (comm and).
  - intros now'. rewrite verify_token_access_run. cbn [fst token_tbl].
    rewrite find_filter_token_gone; [done|].
    intros r Hr. by apply live_token_iff in Hr as [? _].
  - intros tok' now' Hne. rewrite !verify_token_access_run. cbn [fst token_tbl].
    rewrite find_filter_token; [done|].
    intros r Hr. apply live_token_iff in Hr as [? _]. congruence.
  - intros Hnd. apply verify_token_access_inl in Hv as (Hin & Htok & _).
    by eapply filter_token_one.
Qed.

(** *** One day of resolutions *)

Lemma resolve_row c st i :
  users_tbl (resolve settings c st) !! i = users_tbl st !! i
  \/ exists u, users_tbl st !! i = Some u
               /\ users_tbl (resolve settings c st) !! i
                  = Some (daily_credits (call_now c) u).
Proof.
  unfold resolve. rewrite resolved_store.
  destruct (session_owner _ _ _ _) as [[j u]|] eqn:Ho; [|by left].
  pose proof (session_owner_lookup _ _ _ _ _ Ho) as Hj. cbn [users_tbl].
  destruct (decide (j = i)) as [->|Hne].
  - right. exists u. split; [done|].
    apply list_lookup_insert_eq. by eapply lookup_lt_Some.
  - left. by apply list_lookup_insert_ne.
Qed.

Lemma refill_stamp_moves now u :
  last_credit_refill (daily_credits now u) <> last_credit_refill u <->
  refill_due now u = true.
Proof.
  cbn. destruct (refill_due now u) eqn:E; [|naive_solver].
  split; [done|]. intros _ Heq.
  apply refill_due_iff in E as (_ & r & Hr & Hlt). rewrite Hr in Heq.
  injection Heq as ->. lia.
Qed.

Lemma login_stamp_moves now u :
  last_login_credit (daily_credits now u) <> last_login_credit u <->
  login_bonus_due now u = true.
Proof.
  cbn. destruct (login_bonus_due now u) eqn:E; [|naive_solver].
  split; [done|]. intros _ Heq.
  apply login_bonus_due_iff in E as [Hn | (b & Hb & Hne)]; [congruence|].
  rewrite Hb in Heq. injection Heq as ->. done.
Qed.

Lemma refill_applied_due now u :
  negb (bool_decide (last_credit_refill u = last_credit_refill (daily_credits now u)))
  = refill_due now u.
Proof.
  destruct (refill_due now u) eqn:E.
  - apply refill_stamp_moves in E.
    apply negb_true_iff, bool_decide_eq_false. congruence.
  - apply negb_false_iff, bool_decide_eq_true.
    destruct (decide (last_credit_refill u = last_credit_refill (daily_credits now u)))
      as [|Hne]; [done|].
    assert (refill_due now u = true) by (apply refill_stamp_moves; congruence).
    congruence.
Qed.

Lemma login_bonus_applied_due now u :
  negb (bool_decide (last_login_credit u = last_login_credit (daily_credits now u)))
  = login_bonus_due now u.
Proof.
  destruct (login_bonus_due now u) eqn:E.
  - apply login_stamp_moves in E.
    apply negb_true_iff, bool_decide_eq_false. congruence.
  - apply negb_false_iff, bool_decide_eq_true.
    destruct (decide (last_login_credit u = last_login_credit (daily_credits now u)))
      as [|Hne]; [done|].
    assert (login_bonus_due now u = true) by (apply login_stamp_moves; congruence).
    congruence.
Qed.

Lemma resolve_credits c st i :
  credits_at (resolve settings c st) i
  = credits_at st i
    + (if refill_applied i st (resolve settings c st) then 10 else 0)
    + (if login_bonus_applied i st (resolve settings c st) then 1 else 0).
Proof.
  unfold credits_at, refill_applied, login_bonus_applied, refill_stamp, login_stamp.
  destruct (resolve_row c st i) as [-> | (u & Hu & ->)].
  - rewrite !bool_decide_eq_true_2 by done. cbn. lia.
  - rewrite Hu. cbn [mbind option_bind from_option].
    rewrite refill_applied_due, login_bonus_applied_due. reflexivity.
Qed.

Lemma resolve_refill_applied c st i :
  refill_applied i st (resolve settings c st) = true ->
  exists t, refill_stamp (resolve settings c st) i = Some t
            /\ date t = date (call_now c).
Proof.
  unfold refill_applied, refill_stamp.
  destruct (resolve_row c st i) as [-> | (u & Hu & ->)].
  - by rewrite bool_decide_eq_true_2.
  - rewrite Hu. cbn [mbind option_bind]. rewrite negb_true_iff, bool_decide_eq_false.
    intros Hne. cbn in *. destruct (refill_due (call_now c) u); [eauto | done].
Qed.

Lemma resolve_refill_today c st i t :
  refill_stamp st i = Some t -> date t = date (call_now c) ->
  refill_applied i st (resolve settings c st) = false
  /\ refill_stamp (resolve settings c st) i = Some t.
Proof.
  unfold refill_applied, refill_stamp. intros Ht Hd.
  destruct (resolve_row c st i) as [-> | (u & Hu & ->)].
  - by rewrite bool_decide_eq_true_2.
  - rewrite Hu in Ht |- *. cbn [mbind option_bind] in *.
    assert (E : refill_due (call_now c) u = false).
    { unfold refill_due. rewrite Ht. rewrite Z.gtb_ltb.
      replace (date t <? date (call_now c)) with false by (symmetry; apply Z.ltb_ge; lia).
      apply andb_false_r. }
    cbn. rewrite E. by rewrite bool_decide_eq_true_2.
Qed.

Lemma resolve_login_applied c st i :
  login_bonus_applied i st (resolve settings c st) = true ->
  exists t, login_stamp (resolve settings c st) i = Some t
            /\ date t = date (call_now c).
Proof.
  unfold login_bonus_applied, login_stamp.
  destruct (resolve_row c st i) as [-> | (u & Hu & ->)].
  - by rewrite bool_decide_eq_true_2.
  - rewrite Hu. cbn [mbind option_bind]. rewrite negb_true_iff, bool_decide_eq_false.
    intros Hne. cbn in *. destruct (login_bonus_due (call_now c) u); [eauto | done].
Qed.

Lemma resolve_login_today c st i t :
  login_stamp st i = Some t -> date t = date (call_now c) ->
  login_bonus_applied i st (resolve settings c st) = false
  /\ login_stamp (resolve settings c st) i = Some t.
Proof.
  unfold login_bonus_applied, login_stamp. intros Ht Hd.
  destruct (resolve_row c st i) as [-> | (u & Hu & ->)].
  - by rewrite bool_decide_eq_true_2.
  - rewrite Hu in Ht |- *. cbn [mbind option_bind] in *.
    assert (E : login_bonus_due (call_now c) u = false).
    { unfold login_bonus_due. rewrite Ht. apply negb_false_iff, Z.eqb_eq, Hd. }
    cbn. rewrite E. by rewrite bool_decide_eq_true_2.
Qed.

Lemma other_refill_kept f st i :
  keeps_stamps f -> refill_applied i st (f st) = false.
Proof.
  intros Hf. unfold refill_applied. destruct (Hf st i) as [-> _].
  by rewrite bool_decide_eq_true_2.
Qed.

Lemma other_login_kept f st i :
  keeps_stamps f -> login_bonus_applied i st (f st) = false.
Proof.
  intros Hf. unfold login_bonus_applied. destruct (Hf st i) as [_ ->].
  by rewrite bool_decide_eq_true_2.
Qed.

Lemma refills_none_after d rs : forall st i t,
  Forall (request_of_day d) rs ->
  refill_stamp st i = Some t -> date t = d ->
  refills settings i rs st = 0%nat.
Proof.
  induction rs as [|r rs IH]; intros st i t Hday Ht Hd; [done|].
  apply Forall_cons in Hday as [Hr Hday]. cbn [refills].
  destruct r as [c|f]; cbn [serve request_of_day] in *.
  - destruct (resolve_refill_today c st i t Ht) as [-> Ht']; [congruence|].
    by rewrite (IH _ _ _ Hday Ht' Hd).
  - rewrite (other_refill_kept f st i Hr).
    apply (IH _ _ t Hday); [|done]. destruct (Hr st i) as [-> _]. done.
Qed.

Lemma login_bonuses_none_after d rs : forall st i t,
  Forall (request_of_day d) rs ->
  login_stamp st i = Some t -> date t = d ->
  login_bonuses settings i rs st = 0%nat.
Proof.
  induction rs as [|r rs IH]; intros st i t Hday Ht Hd; [done|].
  apply Forall_cons in Hday as [Hr Hday]. cbn [login_bonuses].
  destruct r as [c|f]; cbn [serve request_of_day] in *.
  - destruct (resolve_login_today c st i t Ht) as [-> Ht']; [congruence|].
    by rewrite (IH _ _ _ Hday Ht' Hd).
  - rewrite (other_login_kept f st i Hr).
    apply (IH _ _ t Hday); [|done]. destruct (Hr st i) as [_ ->]. done.
Qed.

(** C1. Over the requests of one calendar day (UTC), served one after the
    other, each user receives the refill at most once and the login bonus at
    most once, however many resolutions there are and with whichever tokens,
    and whatever the other requests in between do to the credits: a later
    resolution of the day that finds [credits = 0] again refills nothing.
    The credits the resolutions added to the user over the day are 10 for the
    refill received plus 1 for the login bonus received. *)
Theorem daily_grants_at_most_once (d : Z) (rs : list Request) (st : Store) (i : nat) :
  Forall (request_of_day d) rs ->
  (refills settings i rs st <= 1)%nat
  /\ (login_bonuses settings i rs st <= 1)%nat
  /\ granted settings i rs st
     = 10 * Z.of_nat (refills settings i rs st)
       + Z.of_nat (login_bonuses settings i rs st).
Proof.
  revert st. induction rs as [|r rs IH]; intros st Hday.
  - cbn. repeat split; lia.
  - apply Forall_cons in Hday as [Hr Hday].
    destruct (IH (serve settings r st) Hday) as (IHr & IHb & IHg).
    cbn [refills login_bonuses granted]. rewrite IHg.
    destruct r as [c|f]; cbn [serve request_of_day] in *.
    + rewrite resolve_credits. split; [|split].
      * destruct (refill_applied i st (resolve settings c st)) eqn:E; [|cbn; lia].
        apply resolve_refill_applied in E as (t & Ht & Hd).
        rewrite (refills_none_after d rs _ _ t Hday Ht) by congruence. lia.
      * destruct (login_bonus_applied i st (resolve settings c st)) eqn:E; [|cbn; lia].
        apply resolve_login_applied in E as (t & Ht & Hd).
        rewrite (login_bonuses_none_after d rs _ _ t Hday Ht) by congruence. lia.
      * destruct (refill_applied i st (resolve settings c st)),
                 (login_bonus_applied i st (resolve settings c st)); lia.
    + rewrite (other_refill_kept f st i Hr), (other_login_kept f st i Hr).
      cbn. repeat split; lia.
Qed.

Lemma spend_keeps_stamps (j : nat) (v : Z) : keeps_stamps (spend j v).
Proof.
  intros st i. unfold refill_stamp, login_stamp, spend. cbn [users_tbl].
  destruct (decide (j = i)) as [->|Hne].
  - rewrite list_lookup_alter_eq. by destruct (users_tbl st !! i).
  - by rewrite list_lookup_alter_ne.
Qed.

End Properties.

(** ** The properties on the sample data *)

Lemma daily_grants_at_most_once_witness :
  Forall (request_of_day 20) sample_day
  /\ (refills sample_settings 0 sample_day sample_store <= 1)%nat
  /\ (login_bonuses sample_settings 0 sample_day sample_store <= 1)%nat
  /\ granted sample_settings 0 sample_day sample_store
     = 10 * Z.of_nat (refills sample_settings 0 sample_day sample_store)
       + Z.of_nat (login_bonuses sample_settings 0 sample_day sample_store).
Proof.
  assert (H : Forall (request_of_day 20) sample_day).
  { repeat (constructor;
            [first [apply spend_keeps_stamps | vm_compute; reflexivity]|]).
    constructor. }
  split; [exact H|].
  exact (daily_grants_at_most_once sample_settings 20 sample_day sample_store 0 H).
Defined.

(** On the sample day [alice] is refilled once although she enters two
    later resolutions with no credits; with the last resolution read on the
    next day she is refilled again. *)
Example sample_day_of_alice :
  credits_at (serve_all sample_settings (firstn 2 sample_day) sample_store) 0 = 0
  /\ refills sample_settings 0 sample_day sample_store = 1%nat
  /\ login_bonuses sample_settings 0 sample_day sample_store = 1%nat
  /\ granted sample_settings 0 sample_day sample_store = 11
  /\ credits_at (serve_all sample_settings sample_day sample_store) 0 = 0
  /\ refills sample_settings 0 sample_two_days sample_store = 2%nat
  /\ login_bonuses sample_settings 0 sample_two_days sample_store = 2%nat
  /\ granted sample_settings 0 sample_two_days sample_store = 22.
Proof. vm_compute. repeat split; reflexivity. Qed.

Lemma refill_fires_exactly_when_witness :
  session_owner sample_settings sample_store "tok-alice" (day20 + 100) = Some (0%nat, alice)
  /\ exists u',
       users_tbl (snd (run_request
                         (get_current_user sample_settings "tok-alice"
                                           (day20 + 100) (day20 + 101))
                         sample_store)) !! 0%nat = Some u'
       /\ credits u' = 11 /\ last_credit_refill u' = Some (day20 + 101).
Proof.
  assert (H : session_owner sample_settings sample_store "tok-alice" (day20 + 100)
              = Some (0%nat, alice)) by (vm_compute; reflexivity).
  split; [exact H|].
  destruct (refill_fires_exactly_when sample_settings sample_store "tok-alice"
              (day20 + 100) (day20 + 101) 0 alice H) as (u' & Hrow & Hfire & _).
  exists u'. split; [exact Hrow|]. apply Hfire.
  split; [reflexivity|]. exists (day19 + 5). split; [reflexivity | vm_compute; reflexivity].
Defined.

Lemma login_bonus_fires_exactly_when_witness :
  session_owner sample_settings sample_store "tok-alice" (day20 + 100) = Some (0%nat, alice)
  /\ exists u',
       users_tbl (snd (run_request
                         (get_current_user sample_settings "tok-alice"
                                           (day20 + 100) (day20 + 101))
                         sample_store)) !! 0%nat = Some u'
       /\ credits u' = 11
       /\ last_credit_refill u' = Some (day20 + 101)
       /\ last_login_credit u' = Some (day20 + 101).
Proof.
  assert (H : session_owner sample_settings sample_store "tok-alice" (day20 + 100)
              = Some (0%nat, alice)) by (vm_compute; reflexivity).
  split; [exact H|].
  destruct (login_bonus_fires_exactly_when sample_settings sample_store "tok-alice"
              (day20 + 100) (day20 + 101) 0 alice H) as (u' & Hrow & _ & _ & Hscenario).
  exists u'. split; [exact Hrow|]. apply Hscenario.
  - reflexivity.
  - exists (day19 + 5). split; [reflexivity | vm_compute; reflexivity].
  - reflexivity.
Defined.

Lemma inactive_user_forbidden_after_commit_witness :
  session_owner sample_settings sample_store "tok-bob" (day20 + 300) = Some (1%nat, bob)
  /\ is_active bob = false
  /\ fst (run_request (get_current_user sample_settings "tok-bob"
                                        (day20 + 300) (day20 + 301)) sample_store)
     = inr forbidden_inactive
  /\ users_tbl (snd (run_request (get_current_user sample_settings "tok-bob"
                                                   (day20 + 300) (day20 + 301))
                                 sample_store)) !! 1%nat
     = Some (daily_credits (day20 + 301) bob).
Proof.
  assert (H : session_owner sample_settings sample_store "tok-bob" (day20 + 300)
              = Some (1%nat, bob)) by (vm_compute; reflexivity).
  split; [exact H|]. split; [reflexivity|].
  destruct (inactive_user_forbidden_after_commit sample_settings sample_store "tok-bob"
              (day20 + 300) (day20 + 301) 1 bob H eq_refl) as (Hfst & _ & Hrow & _).
  split; [exact Hfst | exact Hrow].
Defined.

Example sample_bob_is_credited :
  run_request (get_current_user sample_settings "tok-bob" (day20 + 300) (day20 + 301))
              sample_store
  = (inr forbidden_inactive,
     mkStore [alice;
              mkUsers 2%N "bob@foodisave.se" "hash-b" false false 11
                      (Some (day20 + 301)) (Some (day20 + 301));
              carol]
             (token_tbl sample_store)).
Proof. vm_compute. reflexivity. Qed.

Lemma logout_deletes_presented_token_witness :
  fst (run_request (verify_token_access sample_settings "tok-alice" (day20 + 100))
                   sample_store) = inl (mkToken "tok-alice" 1%N day20)
  /\ token_tbl (snd (run_request (logout sample_settings "tok-alice" (day20 + 100))
                                 sample_store))
     = filter (fun r => token r ≠ "tok-alice") (token_tbl sample_store).
Proof.
  assert (H : fst (run_request
                     (verify_token_access sample_settings "tok-alice" (day20 + 100))
                     sample_store) = inl (mkToken "tok-alice" 1%N day20))
    by (vm_compute; reflexivity).
  split; [exact H|].
  destruct (logout_deletes_presented_token sample_settings sample_store "tok-alice"
              (day20 + 100) _ H) as (_ & _ & Htbl & _).
  exact Htbl.
Defined.

Example sample_logout :
  run_request (logout sample_settings "tok-alice" (day20 + 100)) sample_store
  = (inl (mkResponse 204),
     mkStore (users_tbl sample_store)
             [mkToken "tok-bob" 2%N day20; mkToken "tok-alice-2" 1%N (day20 + 7);
              mkToken "tok-carol" 3%N day20]).
Proof. vm_compute. reflexivity. Qed.

Lemma verify_token_access_spec_witness :
  exists t,
    fst (run_request (verify_token_access sample_settings "tok-alice"
                        (day20 + max_age sample_settings)) sample_store) = inl t.
Proof.
  destruct (verify_token_access_spec sample_settings sample_store "tok-alice"
              (day20 + max_age sample_settings)) as (_ & _ & Hedge & _).
  apply (Hedge (mkToken "tok-alice" 1%N day20)).
  - apply list_elem_of_here.
  - reflexivity.
  - vm_compute. reflexivity.
Defined.

Example sample_token_expires :
  fst (run_request (verify_token_access sample_settings "tok-alice"
                      (day20 + max_age sample_settings + 1)) sample_store)
  = inr unauthorized
  /\ fst (run_request (verify_token_access sample_settings "never-issued" day20)
                      sample_store)
     = inr unauthorized.
Proof. vm_compute. auto. Qed.

Lemma login_outcomes_witness :
  run_request (login sample_verify_password "alice@foodisave.se" "a" "fresh" (day20 + 9))
              sample_store
  = (inl (mkTokenSchema "fresh" "bearer"),
     mkStore (users_tbl sample_store)
             (token_tbl sample_store ++ [mkToken "fresh" 1%N (day20 + 9)]))
  /\ run_request (login sample_verify_password "alice@foodisave.se" "wrong" "fresh"
                        (day20 + 9)) sample_store
     = (inr (HTTPException 401 "Passwords do not match" www_authenticate_bearer),
        sample_store)
  /\ snd (run_request (login sample_verify_password "bob@foodisave.se" "b" "fresh"
                             (day20 + 9)) sample_store)
     = sample_store.
Proof.
  split; [|split].
  - destruct (login_outcomes sample_verify_password sample_store "alice@foodisave.se"
                "a" "fresh" (day20 + 9)) as (_ & Huser & _).
    destruct (Huser alice eq_refl) as (_ & _ & Hok).
    apply Hok; [reflexivity | reflexivity |].
    intros t Ht. vm_compute in Ht.
    repeat (apply elem_of_cons in Ht as [-> | Ht]; [discriminate|]).
    by apply elem_of_nil in Ht.
  - destruct (login_outcomes sample_verify_password sample_store "alice@foodisave.se"
                "wrong" "fresh" (day20 + 9)) as (_ & Huser & _).
    destruct (Huser alice eq_refl) as (Hbad & _).
    apply Hbad. reflexivity.
  - destruct (login_outcomes sample_verify_password sample_store "bob@foodisave.se"
                "b" "fresh" (day20 + 9)) as (_ & _ & Hfail & _).
    apply (Hfail (HTTPException 403
                    "Account not activated. Please check your email and activate your account."
                    www_authenticate_bearer)).
    vm_compute. reflexivity.
Defined.

Lemma get_current_user_frame_witness :
  token_tbl (resolve_all sample_settings sample_calls sample_store)
  = token_tbl sample_store.
Proof.
  unfold sample_calls, resolve_all, resolve.
  repeat match goal with
         | |- token_tbl (snd (run_request (get_current_user ?s ?t ?n0 ?n) ?st)) = _ =>
             destruct (get_current_user_frame s st t n0 n) as (-> & _)
         end.
  reflexivity.
Defined.

Lemma get_current_admin_after_resolution_witness :
  run_request (get_current_admin sample_settings "tok-alice" (day20 + 100) (day20 + 101))
              sample_store
  = (inr forbidden_not_admin,
     mkStore (<[0%nat := daily_credits (day20 + 101) alice]> (users_tbl sample_store))
             (token_tbl sample_store)).
Proof.
  destruct (get_current_admin_after_resolution sample_settings sample_store "tok-alice"
              (day20 + 100) (day20 + 101)) as (_ & _ & Hnon_admin).
  apply Hnon_admin; vm_compute; reflexivity.
Defined.

Example sample_admin_resolution :
  fst (run_request (get_current_admin sample_settings "tok-carol" (day20 + 100)
                                      (day20 + 101)) sample_store)
  = inl carol
  /\ credits_at (snd (run_request (get_current_admin sample_settings "tok-alice"
                                     (day20 + 100) (day20 + 101)) sample_store)) 0
     = 11.
Proof. vm_compute. auto. Qed.

(** ** Token strings *)

Ltac div_lia := zify; Z.to_euclidean_division_equations; lia.

Lemma list_ind3 {A} (P : list A -> Prop) :
  P [] -> (forall a, P [a]) -> (forall a b, P [a; b]) ->
  (forall a b c l, P l -> P (a :: b :: c :: l)) ->
  forall l, P l.
Proof.
  intros H0 H1 H2 H3.
  assert (H : forall l, P l /\ (forall a, P (a :: l)) /\ (forall a b, P (a :: b :: l))).
  { induction l as [|x l (IH0 & IH1 & IH2)]; [by auto|].
    split; [apply IH1|]. split; [intros a; apply IH2|]. intros a b. by apply H3. }
  intros l. apply H.
Qed.

Lemma to_N_lt x : (Byte.to_N x < 256)%N.
Proof. pose proof (Byte.to_N_bounded x). lia. Qed.

Lemma to_N_inj x y : Byte.to_N x = Byte.to_N y -> x = y.
Proof.
  intros H. pose proof (Byte.of_to_N x) as Hx. rewrite H, Byte.of_to_N in Hx.
  congruence.
Qed.

Lemma b64_char_lookup n : (n < 64)%N -> b64_alphabet !! N.to_nat n = Some (b64_char n).
Proof.
  intros Hn. unfold b64_char.
  destruct (b64_alphabet !! N.to_nat n) eqn:E; [done|].
  apply lookup_ge_None in E. change (length b64_alphabet) with 64%nat in E. lia.
Qed.

Lemma b64url_char_lookup n :
  (n < 64)%N -> b64url_alphabet !! N.to_nat n = Some (urlsafe_translate (b64_char n)).
Proof.
  intros Hn. change b64url_alphabet with (urlsafe_translate <$> b64_alphabet).
  by rewrite list_lookup_fmap, b64_char_lookup.
Qed.

Lemma b64url_alphabet_NoDup : NoDup b64url_alphabet.
Proof. apply (bool_decide_unpack _). vm_compute. exact I. Qed.

Lemma b64url_char_inj n m :
  (n < 64)%N -> (m < 64)%N ->
  urlsafe_translate (b64_char n) = urlsafe_translate (b64_char m) -> n = m.
Proof.
  intros Hn Hm E. apply b64url_char_lookup in Hn, Hm. rewrite E in Hn.
  pose proof (NoDup_lookup _ _ _ _ b64url_alphabet_NoDup Hn Hm). lia.
Qed.

Lemma b64url_char_not_pad n :
  (n < 64)%N -> urlsafe_translate (b64_char n) ∉ ["="%byte].
Proof.
  intros Hn Hin. apply list_elem_of_singleton in Hin.
  apply b64url_char_lookup in Hn. rewrite Hin in Hn.
  apply list_elem_of_lookup_2 in Hn. revert Hn.
  apply (bool_decide_unpack _). vm_compute. exact I.
Qed.

Lemma group_lt (a b c : N) :
  (a < 256 -> b < 256 -> c < 256 -> a * 65536 + b * 256 + c < 16777216)%N.
Proof. lia. Qed.

Lemma group1_lt (a : N) : (a < 256 -> a * 65536 < 16777216)%N.
Proof. lia. Qed.

Lemma group2_lt (a b : N) : (a < 256 -> b < 256 -> a * 65536 + b * 256 < 16777216)%N.
Proof. lia. Qed.

Lemma sextets_lt_N (n : N) :
  (n < 16777216 ->
   n / 262144 < 64 /\ n / 4096 mod 64 < 64 /\ n / 64 mod 64 < 64 /\ n mod 64 < 64)%N.
Proof. intros Hn. repeat split; div_lia. Qed.

Lemma sextets_lt a b c :
  let n := (Byte.to_N a * 65536 + Byte.to_N b * 256 + Byte.to_N c)%N in
  (n / 262144 < 64 /\ n / 4096 mod 64 < 64 /\ n / 64 mod 64 < 64 /\ n mod 64 < 64)%N.
Proof.
  cbv zeta. apply sextets_lt_N, group_lt; apply to_N_lt.
Qed.

Lemma sextets_recompose (n : N) :
  (n < 16777216 ->
   n = n / 262144 * 262144 + n / 4096 mod 64 * 4096 + n / 64 mod 64 * 64 + n mod 64)%N.
Proof. intros Hn. div_lia. Qed.

Lemma sextets_eq (n m : N) :
  (n < 16777216 -> m < 16777216 ->
   n / 262144 = m / 262144 -> n / 4096 mod 64 = m / 4096 mod 64 ->
   n / 64 mod 64 = m / 64 mod 64 -> n mod 64 = m mod 64 -> n = m)%N.
Proof.
  intros Hn Hm H0 H1 H2 H3. apply sextets_recompose in Hn, Hm. congruence.
Qed.

Lemma group_eq (a b c a' b' c' : N) :
  (a < 256 -> b < 256 -> c < 256 -> a' < 256 -> b' < 256 -> c' < 256 ->
   a * 65536 + b * 256 + c = a' * 65536 + b' * 256 + c' ->
   a = a' /\ b = b' /\ c = c')%N.
Proof. lia. Qed.

Lemma sextets_inj a b c a' b' c' :
  let n := (Byte.to_N a * 65536 + Byte.to_N b * 256 + Byte.to_N c)%N in
  let m := (Byte.to_N a' * 65536 + Byte.to_N b' * 256 + Byte.to_N c')%N in
  (n / 262144 = m / 262144 -> n / 4096 mod 64 = m / 4096 mod 64 ->
   n / 64 mod 64 = m / 64 mod 64 -> n mod 64 = m mod 64 ->
   a = a' /\ b = b' /\ c = c')%N.
Proof.
  cbv zeta. intros H0 H1 H2 H3.
  pose proof (sextets_eq _ _
                (group_lt _ _ _ (to_N_lt a) (to_N_lt b) (to_N_lt c))
                (group_lt _ _ _ (to_N_lt a') (to_N_lt b') (to_N_lt c'))
                H0 H1 H2 H3) as E.
  apply group_eq in E as (? & ? & ?); auto using to_N_lt, to_N_inj.
Qed.

Lemma rstrip_cons_keep chars c s :
  c ∉ chars -> rstrip chars (c :: s) = c :: rstrip chars s.
Proof.
  intros Hc. cbn. destruct (rstrip chars s); [|done]. by rewrite decide_False.
Qed.

Lemma rstrip_pad : rstrip ["="%byte] ["="%byte] = [] /\ rstrip ["="%byte] ["="%byte; "="%byte] = [].
Proof. split; reflexivity. Qed.

(** The token of a byte string, four characters per group of three bytes. *)
Lemma token_chars_unfold (s : list byte) :
  rstrip ["="%byte] (urlsafe_b64encode s) =
  match s with
  | [] => []
  | [a] => urlsafe_translate <$> take 2 (b64_group (Byte.to_N a * 65536)%N)
  | [a; b] =>
      urlsafe_translate
        <$> take 3 (b64_group (Byte.to_N a * 65536 + Byte.to_N b * 256)%N)
  | a :: b :: c :: rest =>
      ((urlsafe_translate
          <$> b64_group (Byte.to_N a * 65536 + Byte.to_N b * 256 + Byte.to_N c)%N)
       ++ rstrip ["="%byte] (urlsafe_b64encode rest))%list
  end.
Proof.
  destruct s as [|a [|b [|c rest]]]; [done| | |];
    unfold urlsafe_b64encode; cbn [b64encode b64_group take app fmap list_fmap].
  - destruct (sextets_lt_N (Byte.to_N a * 65536)%N) as (? & ? & _);
      [apply group1_lt, to_N_lt|].
    rewrite !rstrip_cons_keep by (by apply b64url_char_not_pad). done.
  - destruct (sextets_lt_N (Byte.to_N a * 65536 + Byte.to_N b * 256)%N) as (? & ? & ? & _);
      [apply group2_lt; apply to_N_lt|].
    rewrite !rstrip_cons_keep by (by apply b64url_char_not_pad). done.
  - destruct (sextets_lt a b c) as (? & ? & ? & ?).
    rewrite !rstrip_cons_keep by (by apply b64url_char_not_pad). done.
Qed.

Lemma token_chars_length (s : list byte) :
  length (rstrip ["="%byte] (urlsafe_b64encode s)) = ((4 * length s + 2) / 3)%nat.
Proof.
  induction s as [| a | a b | a b c rest IH] using list_ind3;
    rewrite token_chars_unfold; [done | done | done |].
  rewrite length_app, IH. cbn [length fmap list_fmap b64_group].
  generalize (length rest). intros n. div_lia.
Qed.

Lemma b64url_char_elem n :
  (n < 64)%N -> urlsafe_translate (b64_char n) ∈ b64url_alphabet.
Proof. intros Hn. eapply list_elem_of_lookup_2, b64url_char_lookup, Hn. Qed.

Lemma token_chars_alphabet (s : list byte) :
  Forall (fun c => c ∈ b64url_alphabet) (rstrip ["="%byte] (urlsafe_b64encode s)).
Proof.
  induction s as [| a | a b | a b c rest IH] using list_ind3;
    rewrite token_chars_unfold; cbn [b64_group take app fmap list_fmap].
  - constructor.
  - destruct (sextets_lt_N (Byte.to_N a * 65536)%N) as (? & ? & _);
      [apply group1_lt, to_N_lt|].
    repeat (constructor; [by apply b64url_char_elem|]). constructor.
  - destruct (sextets_lt_N (Byte.to_N a * 65536 + Byte.to_N b * 256)%N) as (? & ? & ? & _);
      [apply group2_lt; apply to_N_lt|].
    repeat (constructor; [by apply b64url_char_elem|]). constructor.
  - destruct (sextets_lt a b c) as (? & ? & ? & ?).
    repeat (constructor; [by apply b64url_char_elem|]). exact IH.
Qed.

Lemma group1_low (a : N) :
  (((a * 65536) / 64) mod 64 = 0 /\ (a * 65536) mod 64 = 0)%N.
Proof. split; div_lia. Qed.

Lemma group2_low (a b : N) : ((a * 65536 + b * 256) mod 64 = 0)%N.
Proof. div_lia. Qed.

Lemma group1_inj (a a' : N) :
  (a < 256 -> a' < 256 ->
   (a * 65536) / 262144 = (a' * 65536) / 262144 ->
   ((a * 65536) / 4096) mod 64 = ((a' * 65536) / 4096) mod 64 ->
   a = a')%N.
Proof.
  intros Ha Ha' H0 H1.
  assert (E : (a * 65536 = a' * 65536)%N).
  { apply sextets_eq; [by apply group1_lt | by apply group1_lt | done | done | |].
    - destruct (group1_low a) as [-> _]. by destruct (group1_low a') as [-> _].
    - destruct (group1_low a) as [_ ->]. by destruct (group1_low a') as [_ ->]. }
  lia.
Qed.

Lemma group2_inj (a b a' b' : N) :
  (a < 256 -> b < 256 -> a' < 256 -> b' < 256 ->
   (a * 65536 + b * 256) / 262144 = (a' * 65536 + b' * 256) / 262144 ->
   ((a * 65536 + b * 256) / 4096) mod 64 = ((a' * 65536 + b' * 256) / 4096) mod 64 ->
   ((a * 65536 + b * 256) / 64) mod 64 = ((a' * 65536 + b' * 256) / 64) mod 64 ->
   a = a' /\ b = b')%N.
Proof.
  intros Ha Hb Ha' Hb' H0 H1 H2.
  assert (E : (a * 65536 + b * 256 = a' * 65536 + b' * 256)%N).
  { apply sextets_eq; [by apply group2_lt | by apply group2_lt | done | done | done |].
    by rewrite !group2_low. }
  lia.
Qed.

Ltac by_length E :=
  exfalso; apply (f_equal length) in E; cbn [length] in E; lia.

Lemma sextet0_lt (n : N) : (n < 16777216 -> n / 262144 < 64)%N.
Proof. intros Hn. by apply sextets_lt_N. Qed.

Ltac sextet_bound :=
  first [ apply N.mod_upper_bound; done
        | apply sextet0_lt;
          first [ apply group1_lt | apply group2_lt | apply group_lt ]; apply to_N_lt ].

Ltac sextet_eq E := apply b64url_char_inj in E; [ | sextet_bound | sextet_bound ].

Lemma token_chars_inj (s s' : list byte) :
  rstrip ["="%byte] (urlsafe_b64encode s) = rstrip ["="%byte] (urlsafe_b64encode s') ->
  s = s'.
Proof.
  revert s'. induction s as [| a | a b | a b c rest IH] using list_ind3;
    intros s' E; rewrite (token_chars_unfold s') in E;
    match type of E with
    | rstrip _ (urlsafe_b64encode ?l) = _ => rewrite (token_chars_unfold l) in E
    end;
    destruct s' as [|a' [|b' [|c' rest']]];
    cbn [b64_group take app fmap list_fmap] in E;
    try reflexivity; try by_length E.
  - injection E as E0 E1. sextet_eq E0. sextet_eq E1.
    f_equal. apply to_N_inj. apply group1_inj; auto using to_N_lt.
  - injection E as E0 E1 E2. sextet_eq E0. sextet_eq E1. sextet_eq E2.
    destruct (group2_inj (Byte.to_N a) (Byte.to_N b) (Byte.to_N a') (Byte.to_N b'))
      as [Ea Eb]; auto using to_N_lt.
    apply to_N_inj in Ea, Eb. by subst.
  - injection E as E0 E1 E2 E3 Erest. sextet_eq E0. sextet_eq E1. sextet_eq E2. sextet_eq E3.
    destruct (sextets_inj a b c a' b' c' E0 E1 E2 E3) as (-> & -> & ->).
    by rewrite (IH _ Erest).
Qed.

Lemma string_of_list_byte_length (l : list byte) :
  String.length (string_of_list_byte l) = length l.
Proof. induction l as [|b l IH]; [done|]. cbn. f_equal. exact IH. Qed.

Lemma token_urlsafe_length_default (randbytes : nat -> list byte) :
  (forall n, length (randbytes n) = n) ->
  String.length (token_urlsafe randbytes None) = 43%nat.
Proof.
  intros Hlen. unfold token_urlsafe, token_bytes.
  by rewrite string_of_list_byte_length, token_chars_length, Hlen.
Qed.

Lemma token_urlsafe_chars (randbytes : nat -> list byte) (nbytes : option nat) :
  Forall (fun c => c ∈ b64url_alphabet
                   /\ c <> "="%byte /\ c <> "+"%byte /\ c <> "/"%byte)
         (list_byte_of_string (token_urlsafe randbytes nbytes)).
Proof.
  unfold token_urlsafe. rewrite list_byte_of_string_of_list_byte.
  eapply Forall_impl; [apply token_chars_alphabet|].
  intros c Hc. split; [done|].
  repeat split; intros ->; revert Hc; apply (bool_decide_unpack _); vm_compute; exact I.
Qed.

(** X1. A token of [n] random bytes has [(4 n + 2) / 3] characters; the
    default token, of 32 bytes, has 43. *)
Theorem token_urlsafe_length (randbytes : nat -> list byte) (nbytes : option nat) :
  (forall n, length (randbytes n) = n) ->
  String.length (token_urlsafe randbytes nbytes)
  = ((4 * default DEFAULT_ENTROPY nbytes + 2) / 3)%nat
  /\ String.length (token_urlsafe randbytes None) = 43%nat.
Proof.
  intros Hlen. unfold token_urlsafe, token_bytes.
  rewrite !string_of_list_byte_length, !token_chars_length, !Hlen.
  split; [by destruct nbytes | reflexivity].
Qed.

(** X2. Every character of a token is a letter, a digit, ["-"] or ["_"]: the
    padding is stripped and neither ["+"] nor ["/"] occurs. *)
Theorem token_urlsafe_alphabet (randbytes : nat -> list byte) (nbytes : option nat) :
  Forall (fun c => c ∈ b64url_alphabet
                   /\ c <> "="%byte /\ c <> "+"%byte /\ c <> "/"%byte)
         (list_byte_of_string (token_urlsafe randbytes nbytes)).
Proof. apply token_urlsafe_chars. Qed.

(** X3. Tokens made from different random bytes are different. *)
Theorem token_urlsafe_injective (randbytes randbytes' : nat -> list byte)
    (nbytes nbytes' : option nat) :
  token_bytes randbytes nbytes <> token_bytes randbytes' nbytes' ->
  token_urlsafe randbytes nbytes <> token_urlsafe randbytes' nbytes'.
Proof.
  intros Hne E. apply Hne, token_chars_inj. unfold token_urlsafe in E.
  apply (f_equal list_byte_of_string) in E.
  by rewrite !list_byte_of_string_of_list_byte in E.
Qed.

(** ** Sessions from login to logout *)

Section Sessions.

Variable settings : Settings.

Lemma find_app_Some {A} (f : A -> bool) (l l' : list A) (x : A) :
  find f l = Some x -> find f (l ++ l') = Some x.
Proof.
  induction l as [|y l IH]; [done|]. cbn. destruct (f y); [done | exact IH].
Qed.

Lemma find_app_None {A} (f : A -> bool) (l l' : list A) :
  find f l = None -> find f (l ++ l') = find f l'.
Proof.
  induction l as [|y l IH]; [done|]. cbn. destruct (f y); [done | exact IH].
Qed.

Lemma find_token_fresh (f : Token -> bool) tok (l : list Token) :
  (forall r, f r = true -> token r = tok) ->
  (forall t, t ∈ l -> token t <> tok) ->
  find f l = None.
Proof.
  intros Hf Hfresh. induction l as [|r l IH]; [done|]. cbn.
  destruct (f r) eqn:E.
  - destruct (Hfresh r); [left | by apply Hf].
  - apply IH. intros t Ht. apply Hfresh. by right.
Qed.

Lemma verify_token_access_dead st tok now :
  (forall t, t ∈ token_tbl st -> ~ live_token settings tok now t) ->
  fst (run_request (verify_token_access settings tok now) st) = inr unauthorized.
Proof.
  intros Hdead. rewrite verify_token_access_run. cbn [fst].
  destruct (find _ _) as [t|] eqn:Hf; [|done].
  apply find_some in Hf as [Hin Hb]. apply list_elem_of_In in Hin.
  apply live_token_iff in Hb. by destruct (Hdead t).
Qed.

Lemma login_token_live st tok now uid now' :
  (forall t, t ∈ token_tbl st -> token t <> tok) ->
  now' - max_age settings <= now ->
  fst (run_request (verify_token_access settings tok now')
         (mkStore (users_tbl st) (token_tbl st ++ [mkToken tok uid now])))
  = inl (mkToken tok uid now).
Proof.
  intros Hfresh Hnow. rewrite verify_token_access_run. cbn [fst token_tbl].
  rewrite find_app_None.
  - cbn. rewrite String.eqb_refl. cbn.
    replace (now >=? now' - max_age settings) with true; [done|].
    symmetry. apply Z.geb_le. lia.
  - apply (find_token_fresh _ tok); [|done].
    intros r Hr. by apply live_token_iff in Hr as [? _].
Qed.

Section Login.

Variable verify_password : string -> string -> bool.

Lemma login_success_store st username password tok now user :
  find (fun u => String.eqb (email u) username) (users_tbl st) = Some user ->
  verify_password password (hashed_password user) = true ->
  is_active user = true ->
  (forall t, t ∈ token_tbl st -> token t <> tok) ->
  snd (run_request (login verify_password username password tok now) st)
  = mkStore (users_tbl st) (token_tbl st ++ [mkToken tok (id user) now]).
Proof.
  intros Hu Hp Ha Hfresh. rewrite login_run, Hu, Hp, Ha. cbn [negb].
  by rewrite (existsb_token_fresh _ _ Hfresh).
Qed.

(** X4. The token issued by a successful login verifies, as the row of the
    user who logged in, at every instant up to [max_age] after the login,
    and fails with 401 at every later instant. *)
Theorem login_token_verifies_until_max_age (st : Store)
    (username password tok : string) (now : datetime) (user : Users) :
  find (fun u => String.eqb (email u) username) (users_tbl st) = Some user ->
  verify_password password (hashed_password user) = true ->
  is_active user = true ->
  (forall t, t ∈ token_tbl st -> token t <> tok) ->
  let st' := snd (run_request (login verify_password username password tok now) st) in
  (forall now', now' - max_age settings <= now ->
     fst (run_request (verify_token_access settings tok now') st')
     = inl (mkToken tok (id user) now))
  /\ (forall now', now < now' - max_age settings ->
        fst (run_request (verify_token_access settings tok now') st')
        = inr unauthorized).
Proof.
  intros Hu Hp Ha Hfresh. cbn zeta.
  rewrite (login_success_store _ _ _ _ _ _ Hu Hp Ha Hfresh).
  split; intros now' Hnow.
  - by apply login_token_live.
  - apply verify_token_access_dead. cbn [token_tbl]. intros t Ht [Htok Hlive].
    apply elem_of_app in Ht as [Ht | Ht].
    + by apply (Hfresh t).
    + apply list_elem_of_singleton in Ht as ->. cbn in Hlive. lia.
Qed.

(** X5. A login never ends a session: a token that verifies before a login
    request verifies to the same row after it, whatever the request's
    outcome. *)
Theorem login_keeps_sessions (st : Store) (username password tok : string)
    (now : datetime) (tok' : string) (now' : datetime) (t : Token) :
  fst (run_request (verify_token_access settings tok' now') st) = inl t ->
  fst (run_request (verify_token_access settings tok' now')
         (snd (run_request (login verify_password username password tok now) st)))
  = inl t.
Proof.
  rewrite login_run, !verify_token_access_run. cbn [fst].
  destruct (find _ (token_tbl st)) as [t0|] eqn:Hf; [|discriminate].
  intros [= ->].
  repeat match goal with
         | |- context [match ?o with Some _ => _ | None => _ end] =>
             lazymatch o with
             | find _ (users_tbl _) => destruct o
             end
         | |- context [if ?b then _ else _] => destruct b
         end; cbn [snd token_tbl]; rewrite ?Hf; try done.
  by rewrite (find_app_Some _ _ _ _ Hf).
Qed.

Lemma find_elem_of {A} (f : A -> bool) (l : list A) (x : A) :
  find f l = Some x -> x ∈ l.
Proof. intros H. apply find_some in H as [H _]. by apply list_elem_of_In. Qed.

Lemma owner_of_row (st : Store) (t : Token) (i : nat) (u : Users) :
  NoDup (id <$> users_tbl st) ->
  users_tbl st !! i = Some u -> user_id t = id u ->
  owner st t = Some (i, u).
Proof.
  intros Hnd Hi Hid. unfold owner. apply list_find_Some.
  split; [done|]. split; [by symmetry|].
  intros j y Hj Hlt Hy.
  assert (Hi' : (id <$> users_tbl st) !! i = Some (id u)) by (by rewrite list_lookup_fmap, Hi).
  assert (Hj' : (id <$> users_tbl st) !! j = Some (id u))
    by (rewrite list_lookup_fmap, Hj; cbn; congruence).
  pose proof (NoDup_lookup _ _ _ _ Hnd Hi' Hj'). lia.
Qed.

(** X6. With user identifiers unique in storage, the token issued by a
    successful login resolves, while it is not older than [max_age], to the
    user who logged in: the first resolution returns that user with the day's
    credit rules applied and stores the same. *)
Theorem login_then_resolution (st : Store) (username password tok : string)
    (now now0 now1 : datetime) (user : Users) :
  NoDup (id <$> users_tbl st) ->
  find (fun u => String.eqb (email u) username) (users_tbl st) = Some user ->
  verify_password password (hashed_password user) = true ->
  is_active user = true ->
  (forall t, t ∈ token_tbl st -> token t <> tok) ->
  now0 - max_age settings <= now ->
  let st' := snd (run_request (login verify_password username password tok now) st) in
  exists i : nat,
    users_tbl st !! i = Some user
    /\ session_owner settings st' tok now0 = Some (i, user)
    /\ run_request (get_current_user settings tok now0 now1) st'
       = (inl (daily_credits now1 user),
          mkStore (<[i := daily_credits now1 user]> (users_tbl st))
                  (token_tbl st ++ [mkToken tok (id user) now])).
Proof.
  intros Hnd Hu Hp Ha Hfresh Hage. cbn zeta.
  rewrite (login_success_store _ _ _ _ _ _ Hu Hp Ha Hfresh).
  pose proof (login_token_live st tok now (id user) now0 Hfresh Hage) as Hlive.
  apply find_elem_of, list_elem_of_lookup in Hu as [i Hi]. exists i.
  split; [done|].
  assert (Ho : session_owner settings
                 (mkStore (users_tbl st) (token_tbl st ++ [mkToken tok (id user) now]))
                 tok now0 = Some (i, user)).
  { unfold session_owner. rewrite Hlive. by apply owner_of_row. }
  split; [done|].
  by rewrite (get_current_user_resolved _ _ _ _ now1 _ _ Ho), Ha.
Qed.

(** X7. Login never changes the users (it grants no credits) and never
    removes a token row: the stored tokens before the request are a prefix
    of those after it, with at most one row more. *)
Theorem login_frame (st : Store) (username password tok : string) (now : datetime) :
  let st' := snd (run_request (login verify_password username password tok now) st) in
  users_tbl st' = users_tbl st
  /\ token_tbl st `prefix_of` token_tbl st'
  /\ (length (token_tbl st') <= S (length (token_tbl st)))%nat.
Proof.
  cbn zeta. rewrite login_run.
  assert (Hsame : users_tbl st = users_tbl st
                  /\ token_tbl st `prefix_of` token_tbl st
                  /\ (length (token_tbl st) <= S (length (token_tbl st)))%nat)
    by (split; [done | split; [reflexivity | lia]]).
  destruct (find _ _) as [user|]; [|exact Hsame].
  destruct (verify_password _ _); [|exact Hsame].
  destruct (is_active user); [|exact Hsame].
  cbn [negb]. destruct (existsb _ _); [exact Hsame|]. cbn [snd users_tbl token_tbl].
  split; [done|]. split; [by apply prefix_app_r|]. rewrite length_app. cbn. lia.
Qed.

(** X8. The access token of a successful login that draws its token with
    [token_urlsafe()] has 43 characters, all of them letters, digits, ["-"]
    or ["_"]. *)
Theorem login_access_token_shape (st : Store) (username password : string)
    (randbytes : nat -> list byte) (now : datetime) (body : TokenSchema) :
  (forall n, length (randbytes n) = n) ->
  fst (run_request
         (login verify_password username password (token_urlsafe randbytes None) now) st)
  = inl body ->
  String.length (access_token body) = 43%nat
  /\ Forall (fun c => c ∈ b64url_alphabet) (list_byte_of_string (access_token body)).
Proof.
  intros Hlen. rewrite login_run.
  destruct (find _ _) as [user|]; [|discriminate].
  destruct (verify_password _ _); [|discriminate].
  destruct (is_active user); [|discriminate].
  cbn [negb]. destruct (existsb _ _); [discriminate|]. intros [= <-].
  cbn [access_token]. split.
  - by apply token_urlsafe_length_default.
  - eapply Forall_impl; [apply token_urlsafe_chars|]. by intros c [? _].
Qed.

End Login.

Lemma logout_unauthorized st tok now0 :
  fst (run_request (verify_token_access settings tok now0) st) = inr unauthorized ->
  run_request (logout settings tok now0) st = (inr unauthorized, st).
Proof.
  rewrite verify_token_access_run. cbn [fst].
  unfold run_request, logout, get_current_token, verify_token_access, bind.
  cbn [working]. destruct (find _ _); [discriminate | reflexivity].
Qed.

(** X9. A request whose token has no live row (never issued, expired or
    logged out) is refused with 401 by identity resolution, admin resolution
    and logout alike, and stores nothing: no credits are granted and an
    expired row stays where it is. *)
Theorem unauthenticated_request_stores_nothing (st : Store) (tok : string)
    (now0 now : datetime) :
  (forall t, t ∈ token_tbl st -> ~ live_token settings tok now0 t) ->
  run_request (get_current_user settings tok now0 now) st = (inr unauthorized, st)
  /\ run_request (get_current_admin settings tok now0 now) st = (inr unauthorized, st)
  /\ run_request (get_current_token settings tok now0) st = (inr unauthorized, st)
  /\ run_request (logout settings tok now0) st = (inr unauthorized, st).
Proof.
  intros Hdead. pose proof (verify_token_access_dead st tok now0 Hdead) as Hv.
  pose proof (get_current_user_unauthorized settings st tok now0 now _ Hv) as Hu.
  split; [exact Hu|]. split; [|split].
  - unfold run_request, get_current_admin, bind in *.
    destruct (get_current_user settings tok now0 now _) as [r s].
    by injection Hu as -> ->.
  - revert Hv. rewrite verify_token_access_run. cbn [fst].
    unfold run_request, get_current_token, verify_token_access, bind. cbn [working].
    destruct (find _ _); [discriminate | reflexivity].
  - by apply logout_unauthorized.
Qed.

(** X10. Logging out twice: after a logout that succeeded, a second logout
    with the same token, at any time, fails with 401 and changes nothing. *)
Theorem logout_twice (st : Store) (tok : string) (now0 now1 : datetime) (t : Token) :
  fst (run_request (verify_token_access settings tok now0) st) = inl t ->
  let st' := snd (run_request (logout settings tok now0) st) in
  run_request (logout settings tok now1) st' = (inr unauthorized, st').
Proof.
  intros Hv. cbn zeta. rewrite (logout_run _ _ _ _ _ Hv). cbn [snd].
  apply logout_unauthorized. rewrite verify_token_access_run. cbn [fst token_tbl].
  rewrite find_filter_token_gone; [done|].
  intros r Hr. by apply live_token_iff in Hr as [? _].
Qed.

(** X11. Logout never changes the users and never adds a token row: what is
    stored afterwards is a sublist of the token rows stored before, for
    every outcome. *)
Theorem logout_frame (st : Store) (tok : string) (now0 : datetime) :
  let st' := snd (run_request (logout settings tok now0) st) in
  users_tbl st' = users_tbl st /\ token_tbl st' `sublist_of` token_tbl st.
Proof.
  cbn zeta.
  destruct (fst (run_request (verify_token_access settings tok now0) st)) as [t|e] eqn:Hv.
  - rewrite (logout_run _ _ _ _ _ Hv). cbn [snd users_tbl token_tbl].
    split; [done | apply sublist_filter].
  - assert (e = unauthorized) as ->.
    { revert Hv. rewrite verify_token_access_run. cbn [fst].
      destruct (find _ _); [discriminate | by intros [= <-]]. }
    by rewrite (logout_unauthorized _ _ _ Hv).
Qed.

Lemma resolve_all_token_tbl cs : forall st,
  token_tbl (resolve_all settings cs st) = token_tbl st.
Proof.
  induction cs as [|c cs IH]; intros st; [done|]. cbn [resolve_all].
  rewrite IH. unfold resolve. rewrite resolved_store.
  by destruct (session_owner _ _ _ _) as [[i u]|].
Qed.

(** X12. Expiry is final: a token string that fails verification at some
    instant fails at every later instant, also after any number of identity
    resolutions in between; using tokens renews none. *)
Theorem expired_token_stays_expired (st : Store) (tok : string) (now now' : datetime)
    (cs : list Call) (e : exn) :
  fst (run_request (verify_token_access settings tok now) st) = inr e ->
  now <= now' ->
  fst (run_request (verify_token_access settings tok now') (resolve_all settings cs st))
  = inr unauthorized.
Proof.
  intros Hv Hle. apply verify_token_access_dead. rewrite resolve_all_token_tbl.
  intros t Ht [Htok Hlive].
  destruct (verify_token_access_live settings st tok now t Ht) as [t' Ht'];
    [split; [done | lia] | congruence].
Qed.

Lemma daily_credits_bounds now u :
  credits u <= credits (daily_credits now u) <= credits u + 11.
Proof.
  cbn. unfold refill_amount, login_bonus_amount.
  destruct (refill_due now u), (login_bonus_due now u); lia.
Qed.

Lemma resolve_credits_bounds c st j :
  credits_at st j <= credits_at (resolve settings c st) j <= credits_at st j + 11.
Proof.
  unfold credits_at.
  destruct (resolve_row settings c st j) as [-> | (u & Hu & ->)]; [lia|].
  rewrite Hu. cbn [from_option]. apply daily_credits_bounds.
Qed.

(** X13. Identity resolution never takes credits away and never grants more
    than 11 at once: every user's stored credits stay or grow by at most 11
    in one request, never shrink over any sequence of requests, and stay
    non-negative when they were. *)
Theorem resolution_credits_monotone (st : Store) (c : Call) (cs : list Call) (j : nat) :
  credits_at st j <= credits_at (resolve settings c st) j <= credits_at st j + 11
  /\ credits_at st j <= credits_at (resolve_all settings cs st) j
  /\ (Forall (fun u => 0 <= credits u) (users_tbl st) ->
      Forall (fun u => 0 <= credits u) (users_tbl (resolve_all settings cs st))).
Proof.
  split; [apply resolve_credits_bounds|]. split.
  - revert st. induction cs as [|c' cs IH]; intros st; [done|]. cbn [resolve_all].
    pose proof (resolve_credits_bounds c' st j). specialize (IH (resolve settings c' st)).
    lia.
  - revert st. induction cs as [|c' cs IH]; intros st Hst; [done|]. cbn [resolve_all].
    apply IH. unfold resolve. rewrite resolved_store.
    destruct (session_owner _ _ _ _) as [[i u]|] eqn:Ho; [|done]. cbn [users_tbl].
    pose proof (session_owner_lookup _ _ _ _ _ _ Ho) as Hi.
    apply Forall_insert; [done|].
    pose proof (Forall_lookup_1 _ _ _ _ Hst Hi) as Hu. cbn beta in Hu.
    pose proof (daily_credits_bounds (call_now c') u). lia.
Qed.

Lemma daily_credits_same_day now now' u :
  0 <= credits u -> date now' = date now ->
  daily_credits now' (daily_credits now u) = daily_credits now u.
Proof.
  intros Hc Hd.
  assert (Hb : login_bonus_due now' (daily_credits now u) = false).
  { unfold login_bonus_due at 1. cbn [daily_credits last_login_credit].
    destruct (login_bonus_due now u) eqn:E.
    - apply negb_false_iff, Z.eqb_eq. congruence.
    - unfold login_bonus_due in E. destruct (last_login_credit u); [|discriminate].
      by rewrite Hd. }
  assert (Hr : refill_due now' (daily_credits now u) = false).
  { unfold refill_due at 1. cbn [daily_credits last_credit_refill credits].
    unfold refill_amount, login_bonus_amount.
    destruct (refill_due now u) eqn:E.
    - rewrite Hd, Z.gtb_ltb, Z.ltb_irrefl. apply andb_false_r.
    - destruct (login_bonus_due now u).
      + replace (credits u + 0 + 1 =? 0) with false; [done|].
        symmetry. apply Z.eqb_neq. lia.
      + rewrite !Z.add_0_r, Hd. exact E. }
  unfold daily_credits at 1. unfold refill_amount, login_bonus_amount.
  rewrite Hr, Hb, !Z.add_0_r. reflexivity.
Qed.

(** X14. Resolving twice on one day is resolving once: after a resolution
    for a user with non-negative credits, a further resolution for the same
    user at an instant of the same calendar day, with whichever of the user's
    tokens, leaves what is stored unchanged. *)
Theorem same_day_resolution_idempotent (st : Store) (c c' : Call) (i : nat) (u : Users) :
  session_owner settings st (call_token c) (call_now0 c) = Some (i, u) ->
  0 <= credits u ->
  fst <$> session_owner settings (resolve settings c st) (call_token c') (call_now0 c')
  = Some i ->
  date (call_now c') = date (call_now c) ->
  resolve settings c' (resolve settings c st) = resolve settings c st.
Proof.
  intros Ho Hc Ho' Hd.
  assert (Hst : resolve settings c st
                = mkStore (<[i := daily_credits (call_now c) u]> (users_tbl st))
                          (token_tbl st))
    by (unfold resolve; by rewrite resolved_store, Ho).
  pose proof (session_owner_lookup _ _ _ _ _ _ Ho) as Hi.
  destruct (session_owner settings (resolve settings c st) (call_token c') (call_now0 c'))
    as [[i' u']|] eqn:E; [|discriminate].
  injection Ho' as ->.
  pose proof (session_owner_lookup _ _ _ _ _ _ E) as Hi'.
  unfold resolve at 1. rewrite resolved_store, E.
  rewrite Hst in Hi' |- *. cbn [users_tbl token_tbl] in *.
  rewrite list_lookup_insert_eq in Hi' by (by eapply lookup_lt_Some).
  injection Hi' as <-.
  by rewrite (daily_credits_same_day _ _ _ Hc Hd), list_insert_insert_eq.
Qed.

(** X15. A user returned by identity resolution is active, is the owner of
    the presented token with the day's credit rules applied, and is exactly
    the row stored after the call. *)
Theorem get_current_user_returns_stored_active_user (st : Store) (tok : string)
    (now0 now : datetime) (user : Users) :
  fst (run_request (get_current_user settings tok now0 now) st) = inl user ->
  is_active user = true
  /\ exists (i : nat) (u : Users),
       session_owner settings st tok now0 = Some (i, u)
       /\ user = daily_credits now u
       /\ users_tbl (snd (run_request (get_current_user settings tok now0 now) st)) !! i
          = Some user.
Proof.
  intros Hrun.
  destruct (session_owner settings st tok now0) as [[i u]|] eqn:Ho.
  - rewrite (get_current_user_resolved _ _ _ _ now _ _ Ho) in Hrun |- *.
    cbn [fst snd users_tbl] in *.
    destruct (is_active u) eqn:Ha; [|discriminate]. injection Hrun as <-.
    split; [exact Ha|]. exists i, u. split; [done|]. split; [done|].
    apply list_lookup_insert_eq. eapply lookup_lt_Some, session_owner_lookup, Ho.
  - exfalso. unfold session_owner in Ho.
    destruct (fst (run_request (verify_token_access settings tok now0) st)) as [t|e] eqn:Hv.
    + by rewrite (get_current_user_orphan _ _ _ _ now _ Hv Ho) in Hrun.
    + by rewrite (get_current_user_unauthorized _ _ _ _ now _ Hv) in Hrun.
Qed.

(** X16. A user returned by admin resolution is an active admin, and is the
    user that identity resolution returns for the same request. *)
Theorem get_current_admin_returns_active_admin (st : Store) (tok : string)
    (now0 now : datetime) (user : Users) :
  fst (run_request (get_current_admin settings tok now0 now) st) = inl user ->
  is_admin user = true
  /\ is_active user = true
  /\ fst (run_request (get_current_user settings tok now0 now) st) = inl user.
Proof.
  unfold run_request at 1. unfold get_current_admin, bind.
  destruct (get_current_user settings tok now0 now (mkSession st st [])) as [[u|e] s] eqn:Hu;
    [|discriminate].
  destruct (is_admin u) eqn:Hadm; cbn [negb fst]; [|discriminate]. intros [= <-].
  assert (Hrun : fst (run_request (get_current_user settings tok now0 now) st) = inl u)
    by (unfold run_request; by rewrite Hu).
  split; [done|]. split; [|done].
  destruct (session_owner settings st tok now0) as [[i u0]|] eqn:Ho.
  - rewrite (get_current_user_resolved _ _ _ _ now _ _ Ho) in Hrun. cbn [fst] in Hrun.
    destruct (is_active u0) eqn:Ha; [|discriminate]. by injection Hrun as <-.
  - exfalso. unfold session_owner in Ho.
    destruct (fst (run_request (verify_token_access settings tok now0) st)) as [t|e] eqn:Hv.
    + by rewrite (get_current_user_orphan _ _ _ _ now _ Hv Ho) in Hrun.
    + by rewrite (get_current_user_unauthorized _ _ _ _ now _ Hv) in Hrun.
Qed.

(** X17. A live token whose [user_id] is the identifier of no stored user
    makes identity resolution raise [AttributeError] (reading [credits] of
    [None]): no user is returned and nothing is stored. *)
Theorem token_without_user_raises (st : Store) (tok : string) (now0 now : datetime)
    (t : Token) :
  fst (run_request (verify_token_access settings tok now0) st) = inl t ->
  (forall u, u ∈ users_tbl st -> id u <> user_id t) ->
  run_request (get_current_user settings tok now0 now) st = (inr AttributeError, st).
Proof.
  intros Hv Hnone. apply (get_current_user_orphan _ _ _ _ _ t Hv).
  unfold owner. apply list_find_None, Forall_forall. intros u Hu. by apply Hnone.
Qed.

Lemma date_before_midnight (k : Z) (b now : datetime) :
  b < k * MICROSECONDS_PER_DAY -> k * MICROSECONDS_PER_DAY <= now -> date b < date now.
Proof.
  unfold date, MICROSECONDS_PER_DAY. intros Hb Hnow.
  assert (b `div` 86400000000 < k) by (apply Z.div_lt_upper_bound; lia).
  assert (k <= now `div` 86400000000) by (apply Z.div_le_lower_bound; lia).
  lia.
Qed.

Lemma date_within_day (k : Z) (x : datetime) :
  k * MICROSECONDS_PER_DAY <= x < (k + 1) * MICROSECONDS_PER_DAY -> date x = k.
Proof.
  unfold date, MICROSECONDS_PER_DAY. intros Hx.
  symmetry. apply (Z.div_unique_pos x 86400000000 k (x - k * 86400000000)); lia.
Qed.

(** X18. The daily rules follow the UTC calendar day, not elapsed time. If a
    midnight lies between the user's [last_login_credit] and [now], however
    close the two instants are, the resolution grants the login bonus and
    stamps [now]; if both lie within one day, however far apart, it grants
    none and keeps the stamp. *)
Theorem login_bonus_follows_calendar_day (st : Store) (tok : string)
    (now0 now : datetime) (i : nat) (u : Users) (bonus : datetime) (k : Z) :
  session_owner settings st tok now0 = Some (i, u) ->
  last_login_credit u = Some bonus ->
  let stored :=
    users_tbl (snd (run_request (get_current_user settings tok now0 now) st)) !! i in
  (bonus < k * MICROSECONDS_PER_DAY <= now ->
     exists u', stored = Some u'
                /\ last_login_credit u' = Some now
                /\ credits u' = credits u + refill_amount now u + 1)
  /\ (k * MICROSECONDS_PER_DAY <= bonus < (k + 1) * MICROSECONDS_PER_DAY ->
      k * MICROSECONDS_PER_DAY <= now < (k + 1) * MICROSECONDS_PER_DAY ->
        exists u', stored = Some u'
                   /\ last_login_credit u' = Some bonus
                   /\ credits u' = credits u + refill_amount now u).
Proof.
  intros Ho Hb. cbn zeta. rewrite (resolved_row _ _ _ _ now _ _ Ho). split.
  - intros [Hlt Hle]. pose proof (date_before_midnight k bonus now Hlt Hle) as Hd.
    exists (daily_credits now u). split; [done|].
    assert (E : login_bonus_due now u = true).
    { unfold login_bonus_due. rewrite Hb. apply negb_true_iff, Z.eqb_neq. lia. }
    cbn. unfold login_bonus_amount. by rewrite E.
  - intros Hbonus Hnow.
    exists (daily_credits now u). split; [done|].
    assert (E : login_bonus_due now u = false).
    { unfold login_bonus_due. rewrite Hb. apply negb_false_iff, Z.eqb_eq.
      by rewrite (date_within_day k bonus), (date_within_day k now). }
    cbn. unfold login_bonus_amount. rewrite E, Hb. split; [done | lia].
Qed.

Section LoginLogout.

Variable verify_password : string -> string -> bool.

(** X19. Login followed by logout with the issued token, while the token is
    not older than [max_age], restores what was stored before the login: the
    issued row is gone and nothing else changed. *)
Theorem login_then_logout_restores_store (st : Store) (username password tok : string)
    (now now0 : datetime) (user : Users) :
  find (fun u => String.eqb (email u) username) (users_tbl st) = Some user ->
  verify_password password (hashed_password user) = true ->
  is_active user = true ->
  (forall t, t ∈ token_tbl st -> token t <> tok) ->
  now0 - max_age settings <= now ->
  run_request (logout settings tok now0)
    (snd (run_request (login verify_password username password tok now) st))
  = (inl (mkResponse 204), st).
Proof.
  intros Hu Hp Ha Hfresh Hage.
  rewrite (login_success_store _ _ _ _ _ _ _ Hu Hp Ha Hfresh).
  rewrite (logout_run _ _ _ _ _ (login_token_live st tok now (id user) now0 Hfresh Hage)).
  cbn [users_tbl token_tbl]. f_equal.
  rewrite filter_app, filter_cons_False, filter_nil, app_nil_r by (cbn; naive_solver).
  rewrite filter_token_absent; [by destruct st|].
  intros (t & Ht & Hin)%list_elem_of_fmap. by apply (Hfresh t).
Qed.

End LoginLogout.

End Sessions.

(** ** The further properties on the sample data *)

Lemma token_urlsafe_length_witness :
  (forall n, length (sample_randbytes n) = n)
  /\ String.length (token_urlsafe sample_randbytes (Some 16%nat)) = 22%nat
  /\ String.length (token_urlsafe sample_randbytes None) = 43%nat.
Proof.
  assert (H : forall n, length (sample_randbytes n) = n) by (intros n; apply repeat_length).
  split; [exact H|].
  exact (token_urlsafe_length sample_randbytes (Some 16%nat) H).
Defined.

Example sample_tokens :
  token_urlsafe sample_randbytes (Some 16%nat) = "KioqKioqKioqKioqKioqKg"
  /\ token_urlsafe zero_randbytes (Some 2%nat) = "AAA"
  /\ token_urlsafe (fun _ => [xfb; xef; xbe]) None = "----"
  /\ token_urlsafe (fun _ => [xff]) None = "_w"
  /\ token_urlsafe sample_randbytes (Some 0%nat) = "".
Proof. vm_compute. auto. Qed.

Lemma token_urlsafe_injective_witness :
  token_bytes sample_randbytes None <> token_bytes zero_randbytes None
  /\ token_urlsafe sample_randbytes None <> token_urlsafe zero_randbytes None.
Proof.
  assert (H : token_bytes sample_randbytes None <> token_bytes zero_randbytes None)
    by (vm_compute; discriminate).
  split; [exact H|].
  exact (token_urlsafe_injective sample_randbytes zero_randbytes None None H).
Defined.

Lemma sample_store_fresh :
  forall t, t ∈ token_tbl sample_store -> token t <> "fresh".
Proof.
  intros t Ht. vm_compute in Ht.
  repeat (apply elem_of_cons in Ht as [-> | Ht]; [discriminate|]).
  by apply elem_of_nil in Ht.
Defined.

Lemma login_token_verifies_until_max_age_witness :
  fst (run_request
         (verify_token_access sample_settings "fresh"
            (day20 + 9 + max_age sample_settings))
         (snd (run_request
                 (login sample_verify_password "alice@foodisave.se" "a" "fresh" (day20 + 9))
                 sample_store)))
  = inl (mkToken "fresh" 1%N (day20 + 9)).
Proof.
  destruct (login_token_verifies_until_max_age sample_settings sample_verify_password
              sample_store "alice@foodisave.se" "a" "fresh" (day20 + 9) alice
              eq_refl eq_refl eq_refl sample_store_fresh) as [Hlive _].
  apply Hlive. vm_compute. discriminate.
Defined.

Lemma login_keeps_sessions_witness :
  fst (run_request (verify_token_access sample_settings "tok-bob" (day20 + 100))
         (snd (run_request
                 (login sample_verify_password "alice@foodisave.se" "a" "fresh" (day20 + 9))
                 sample_store)))
  = inl (mkToken "tok-bob" 2%N day20).
Proof.
  apply (login_keeps_sessions sample_settings sample_verify_password sample_store).
  vm_compute. reflexivity.
Defined.

Lemma login_then_resolution_witness :
  exists i : nat,
    users_tbl sample_store !! i = Some alice
    /\ session_owner sample_settings
         (snd (run_request
                 (login sample_verify_password "alice@foodisave.se" "a" "fresh" (day20 + 9))
                 sample_store))
         "fresh" (day20 + 10)
       = Some (i, alice).
Proof.
  destruct (login_then_resolution sample_settings sample_verify_password sample_store
              "alice@foodisave.se" "a" "fresh" (day20 + 9) (day20 + 10) (day20 + 11) alice)
    as (i & Hi & Ho & _).
  - apply (bool_decide_unpack _). vm_compute. exact I.
  - reflexivity.
  - reflexivity.
  - reflexivity.
  - exact sample_store_fresh.
  - vm_compute. discriminate.
  - exists i. split; [exact Hi | exact Ho].
Defined.

Lemma login_access_token_shape_witness :
  String.length (token_urlsafe sample_randbytes None) = 43%nat.
Proof.
  assert (Hlen : forall n, length (sample_randbytes n) = n)
    by (intros n; apply repeat_length).
  assert (Hrun : fst (run_request
                        (login sample_verify_password "alice@foodisave.se" "a"
                               (token_urlsafe sample_randbytes None) (day20 + 9))
                        sample_store)
                 = inl (mkTokenSchema (token_urlsafe sample_randbytes None) "bearer"))
    by (vm_compute; reflexivity).
  exact (proj1 (login_access_token_shape sample_verify_password sample_store
                  "alice@foodisave.se" "a" sample_randbytes (day20 + 9) _ Hlen Hrun)).
Defined.

Lemma unauthenticated_request_stores_nothing_witness :
  run_request (get_current_user sample_settings "never-issued" (day20 + 1) (day20 + 2))
              sample_store
  = (inr unauthorized, sample_store)
  /\ run_request (logout sample_settings "tok-alice" (day20 + max_age sample_settings + 1))
                 sample_store
     = (inr unauthorized, sample_store).
Proof.
  split.
  - apply (unauthenticated_request_stores_nothing sample_settings sample_store
             "never-issued" (day20 + 1) (day20 + 2)).
    intros t Ht [Htok _]. vm_compute in Ht.
    repeat (apply elem_of_cons in Ht as [-> | Ht]; [discriminate|]).
    by apply elem_of_nil in Ht.
  - apply (unauthenticated_request_stores_nothing sample_settings sample_store
             "tok-alice" (day20 + max_age sample_settings + 1) 0).
    intros t Ht [Htok Hlive]. vm_compute in Ht.
    repeat (apply elem_of_cons in Ht as [-> | Ht];
            [first [discriminate | apply Hlive; reflexivity]|]).
    by apply elem_of_nil in Ht.
Defined.

Lemma logout_twice_witness :
  run_request (logout sample_settings "tok-alice" (day20 + 200))
    (snd (run_request (logout sample_settings "tok-alice" (day20 + 100)) sample_store))
  = (inr unauthorized,
     snd (run_request (logout sample_settings "tok-alice" (day20 + 100)) sample_store)).
Proof.
  apply (logout_twice sample_settings sample_store "tok-alice" (day20 + 100) (day20 + 200)
           (mkToken "tok-alice" 1%N day20)).
  vm_compute. reflexivity.
Defined.

Lemma expired_token_stays_expired_witness :
  fst (run_request
         (verify_token_access sample_settings "tok-bob" (day20 + max_age sample_settings + 500))
         (resolve_all sample_settings sample_calls sample_store))
  = inr unauthorized.
Proof.
  apply (expired_token_stays_expired sample_settings sample_store "tok-bob"
           (day20 + max_age sample_settings + 1) _ sample_calls unauthorized).
  - vm_compute. reflexivity.
  - vm_compute. discriminate.
Defined.

Lemma resolution_credits_monotone_witness :
  Forall (fun u => 0 <= credits u)
         (users_tbl (resolve_all sample_settings sample_calls sample_store)).
Proof.
  destruct (resolution_credits_monotone sample_settings sample_store
              (mkCall "tok-alice" day20 day20) sample_calls 0) as (_ & _ & Hnonneg).
  apply Hnonneg. repeat (constructor; [vm_compute; discriminate|]). constructor.
Defined.

Lemma same_day_resolution_idempotent_witness :
  resolve sample_settings (mkCall "tok-alice-2" (day20 + 200) (day20 + 201))
    (resolve sample_settings (mkCall "tok-alice" (day20 + 100) (day20 + 101)) sample_store)
  = resolve sample_settings (mkCall "tok-alice" (day20 + 100) (day20 + 101)) sample_store.
Proof.
  apply (same_day_resolution_idempotent sample_settings sample_store
           (mkCall "tok-alice" (day20 + 100) (day20 + 101))
           (mkCall "tok-alice-2" (day20 + 200) (day20 + 201)) 0 alice).
  - vm_compute. reflexivity.
  - vm_compute. discriminate.
  - vm_compute. reflexivity.
  - vm_compute. reflexivity.
Defined.

Lemma get_current_user_returns_stored_active_user_witness :
  is_active (daily_credits (day20 + 101) alice) = true.
Proof.
  apply (get_current_user_returns_stored_active_user sample_settings sample_store
           "tok-alice" (day20 + 100) (day20 + 101) (daily_credits (day20 + 101) alice)).
  vm_compute. reflexivity.
Defined.

Lemma get_current_admin_returns_active_admin_witness :
  is_admin carol = true /\ is_active carol = true.
Proof.
  destruct (get_current_admin_returns_active_admin sample_settings sample_store
              "tok-carol" (day20 + 100) (day20 + 101) carol) as (Hadm & Hact & _).
  - vm_compute. reflexivity.
  - split; [exact Hadm | exact Hact].
Defined.

Lemma token_without_user_raises_witness :
  run_request (get_current_user sample_settings "tok-ghost" (day20 + 1) (day20 + 2))
              ghost_store
  = (inr AttributeError, ghost_store).
Proof.
  apply (token_without_user_raises sample_settings ghost_store "tok-ghost"
           (day20 + 1) (day20 + 2) (mkToken "tok-ghost" 9%N day20)).
  - vm_compute. reflexivity.
  - intros u Hu. vm_compute in Hu.
    apply elem_of_cons in Hu as [-> | Hu]; [discriminate|].
    by apply elem_of_nil in Hu.
Defined.

Lemma login_bonus_follows_calendar_day_witness :
  exists u',
    users_tbl (snd (run_request (get_current_user sample_settings "tok-dave" day20 day20)
                                midnight_store)) !! 0%nat = Some u'
    /\ last_login_credit u' = Some day20
    /\ credits u' = 4.
Proof.
  destruct (login_bonus_follows_calendar_day sample_settings midnight_store "tok-dave"
              day20 day20 0 dave (day20 - 1) 20) as [Hmidnight _].
  - vm_compute. reflexivity.
  - reflexivity.
  - apply Hmidnight. vm_compute. split; [reflexivity | discriminate].
Defined.

Lemma login_then_logout_restores_store_witness :
  run_request (logout sample_settings "fresh" (day20 + 10))
    (snd (run_request
            (login sample_verify_password "alice@foodisave.se" "a" "fresh" (day20 + 9))
            sample_store))
  = (inl (mkResponse 204), sample_store).
Proof.
  apply (login_then_logout_restores_store sample_settings sample_verify_password
           sample_store "alice@foodisave.se" "a" "fresh" (day20 + 9) (day20 + 10) alice).
  - reflexivity.
  - reflexivity.
  - reflexivity.
  - exact sample_store_fresh.
  - vm_compute. discriminate.
Defined.
